(** * Chunked peer-to-peer file transfer: sender loops and receiver buffers

    A shallow embedding of the two chunked iterations of the transfer
    protocol:

    - [AckGated]: HEADER / ACK / CHUNK.  The receiver acknowledges a
      header, the sender streams on ACK behind a flow-control gate, and the
      receiver finalises as soon as the byte count reaches the announced
      size.  The sender's announce carries the file's type as its [type].
    - [StartChunkEnd]: file-start / stream-chunk / file-end with a log
      console.  The sender streams without a gate and closes with an
      explicit end signal; the receiver finalises on that signal.

    Event handlers are functions from the handler's inputs and the state
    they touch to the new state and the list of effects they perform.
    Values a handler reads from its environment ([Date.now()],
    [bufferedAmount], [connection.open], [Math.random()]) are arguments.
    The receivers' buffer objects are finite maps read with the lookup of
    a plain object, which also sees what the object inherits. *)

From Stdlib Require Import NArith Lia.
From stdpp Require Import gmap strings list.

Open Scope N_scope.

(** ** Binary data *)

Abbreviation byte := Byte.byte.

(** [ArrayBuffer.byteLength] *)
Definition byteLength (b : list byte) : N := N.of_nat (length b).

(** ** Media types

    The type that a [Blob] or a [File] reports for the type it was made
    with: empty when the given type has a character outside U+0020 to
    U+007E, and otherwise the given type with A-Z in lower case.  Strings
    are sequences of code units below 256. *)
Module MediaType.
Import Stdlib.Strings.Ascii.

Definition inRange (a : ascii) : bool :=
  let n := N_of_ascii a in (32 <=? n) && (n <=? 126).

Definition asciiLower (a : ascii) : ascii :=
  let n := N_of_ascii a in
  if (65 <=? n) && (n <=? 90) then ascii_of_N (n + 32) else a.

Fixpoint allInRange (s : string) : bool :=
  match s with
  | EmptyString => true
  | String a s' => inRange a && allInRange s'
  end.

Fixpoint lower (s : string) : string :=
  match s with
  | EmptyString => EmptyString
  | String a s' => String (asciiLower a) (lower s')
  end.

Definition normalize (ty : string) : string :=
  if allInRange ty then lower ty else EmptyString.

End MediaType.

(** A browser [File], made from a name, a type and its content.  Its size
    is the length of its content. *)
Record File := mkFile {
  fname : string;
  ftypeGiven : string;
  content : list byte
}.

(** [file.type] *)
Definition ftype (f : File) : string := MediaType.normalize (ftypeGiven f).

Definition fsize (f : File) : N := byteLength (content f).

(** [Blob.prototype.slice(start, end)] for non-negative arguments: both
    ends are clamped to the size and an inverted range is empty. *)
Definition slice (bs : list byte) (start stop : N) : list byte :=
  let relStart := N.min start (byteLength bs) in
  let relEnd := N.min stop (byteLength bs) in
  let span := relEnd - relStart in
  take (N.to_nat span) (drop (N.to_nat relStart) bs).

(** The [k] successive slices of width [c] that a send loop reads when it
    starts at offset [o] and advances by [c] after each one. *)
Fixpoint chunksFrom (c : N) (bs : list byte) (o : N) (k : nat) : list (list byte) :=
  match k with
  | O => []
  | S k' => slice bs o (o + c) :: chunksFrom c bs (o + c) k'
  end.

(** The sum of the lengths of a list of chunks. *)
Definition totalLength (parts : list (list byte)) : N :=
  foldr (fun part n => byteLength part + n) 0 parts.

(** [new Blob(parts, {type})]: the parts joined in order, under the
    normal form of the given type. *)
Record Blob := mkBlob {
  blobBytes : list byte;
  blobType : string
}.

Definition newBlob (parts : list (list byte)) (ty : string) : Blob :=
  {| blobBytes := concat parts; blobType := MediaType.normalize ty |}.

(** ** Plain objects used as maps

    Both receivers keep their buffers in an object literal [{}] indexed by
    the transfer id.  The finite map holds what assignments have put
    there; the entry under ["__proto__"], if any, is the object's
    prototype, because assigning an object to that key replaces the
    prototype instead of adding a property.

    Reading [o[id]] gives the entry assigned under [id] if there is one.
    Otherwise the read goes up the prototype chain: first the fields of
    the entry that was made the prototype, then the properties of
    [Object.prototype].  A handler only tests what it read for truthiness
    and then uses it as an entry, so a value that is not an entry is kept
    as [GotOther] when it is truthy (a function of [Object.prototype],
    [Object.prototype] itself, a non-empty string, a non-zero number, an
    array) and as [GotNothing] when it is falsy or [undefined]. *)
Inductive Got (B : Type) :=
| GotEntry (b : B)
| GotOther
| GotNothing.
Arguments GotEntry {B} b.
Arguments GotOther {B}.
Arguments GotNothing {B}.

(** The property names of [Object.prototype] other than [__proto__]. *)
Definition objectPrototypeNames : list string :=
  [ "constructor"; "__defineGetter__"; "__defineSetter__"; "hasOwnProperty";
    "__lookupGetter__"; "__lookupSetter__"; "isPrototypeOf";
    "propertyIsEnumerable"; "toString"; "valueOf"; "toLocaleString" ].

Definition fromObjectPrototype {B : Type} (id : string) : Got B :=
  if bool_decide (id ∈ objectPrototypeNames) then GotOther else GotNothing.

Section JsGet.
Context {B : Type}.

(** [fieldTruthy b k]: whether the entry [b] has a field named [k] and,
    if so, whether the value of the field is truthy. *)
Variable fieldTruthy : B -> string -> option bool.

(** [o[id]] *)
Definition jsGet (o : gmap string B) (id : string) : Got B :=
  match o !! id with
  | Some b => GotEntry b
  | None =>
      if bool_decide (id = "__proto__") then GotOther
      else match o !! "__proto__" with
           | Some p =>
               match fieldTruthy p id with
               | Some true => GotOther
               | Some false => GotNothing
               | None => fromObjectPrototype id
               end
           | None => fromObjectPrototype id
           end
  end.
End JsGet.

(** [delete o[id]]: removes a property; the prototype is not a property. *)
Definition jsDelete {B : Type} (id : string) (o : gmap string B) : gmap string B :=
  if bool_decide (id = "__proto__") then o else delete id o.

(** Whether a string, respectively a number, is truthy. *)
Definition truthyString (s : string) : bool := bool_decide (s ≠ EmptyString).
Definition truthyNumber (n : N) : bool := negb (n =? 0).

(** Displayed percentages are floating-point expressions that no handler
    branches on; they are kept as the integer operands of the expression. *)
Inductive Percent :=
| Pct (n : N)
| RoundPct (num den : N).  (* Math.min(100, Math.round((num / den) * 100)) *)

(** What a send loop reads from the connection when a callback runs. *)
Record Env := mkEnv {
  bufferedAmount : N;   (* connection.dataChannel.bufferedAmount *)
  isOpen : bool         (* connection.open *)
}.

(** Sample inputs on which the definitions are run. *)
Definition sampleFile : File :=
  {| fname := "a.txt"; ftypeGiven := "text/plain";
     content := [Byte.x61; Byte.x62; Byte.x63; Byte.x64; Byte.x65] |}.

Definition emptyFile : File :=
  {| fname := "empty.txt"; ftypeGiven := "text/plain"; content := [] |}.

(** A file of [n] bytes that alternate between two values. *)
Definition patternFile (n : nat) : File :=
  {| fname := "a.txt"; ftypeGiven := "text/plain";
     content := (fun i => if Nat.even i then Byte.x61 else Byte.x62) <$> seq 0 n |}.

Definition flowingEnv : Env := {| bufferedAmount := 0; isOpen := true |}.

Definition blockedEnv : Env := {| bufferedAmount := 10485761; isOpen := true |}.

(** ** The ACK-gated iteration: HEADER / ACK / CHUNK *)

Module AckGated.

(** Messages on the data channel, told apart by their [type].  An
    announce is an object with the fields [type], [id], [name] and [size];
    it is a header when its [type] is ['HEADER'].  A handler ignores every
    message whose [type] it does not test for. *)
Inductive Message :=
| Announce (type : string) (id : string) (name : string) (size : N)
| ACK (id : string)                                 (* { type: 'ACK', id } *)
| CHUNK (id : string) (chunk : list byte).          (* { type: 'CHUNK', id, chunk } *)

Definition HEADER (id name : string) (size : N) : Message :=
  Announce "HEADER" id name size.

(** [data.type] and [data.id] *)
Definition messageType (data : Message) : string :=
  match data with
  | Announce type _ _ _ => type
  | ACK _ => "ACK"
  | CHUNK _ _ => "CHUNK"
  end.

Definition messageId (data : Message) : string :=
  match data with
  | Announce _ id _ _ => id
  | ACK id => id
  | CHUNK id _ => id
  end.

(** *** Sender *)

Definition CHUNK_SIZE : N := 16 * 1024.

(** The flow-control threshold of [sendLoop]. *)
Definition HIGH_WATER_MARK : N := 10 * 1024 * 1024.

Inductive SendingState := idle | waiting_ack | sending | done.

Record SenderUI := mkSenderUI {
  sendingState : SendingState;
  uploadProgress : Percent;
  currentFileName : string
}.

(** The closure that [startStreamingFile] creates: the file and id it
    captured and its own [offset]. *)
Record StreamLoop := mkStreamLoop {
  file : File;
  fileId : string;
  offset : N
}.

Inductive Callback := CbSendLoop | CbResetUI.

Inductive Effect :=
| Send (m : Message)                        (* connection.send(m) *)
| SetTimeout (cb : Callback) (delay : N)    (* setTimeout(cb, delay) *)
| ReadAsArrayBuffer (part : list byte).     (* reader.readAsArrayBuffer(slice) *)

(** [sendLoop], for a chunk size [c]; the source fixes [c = CHUNK_SIZE]. *)
Definition sendLoop (c : N) (e : Env) (l : StreamLoop) (ui : SenderUI)
  : StreamLoop * SenderUI * list Effect :=
  if HIGH_WATER_MARK <? bufferedAmount e then
    (l, ui, [SetTimeout CbSendLoop 50])
  else if fsize (file l) <=? offset l then
    (l,
     {| sendingState := done; uploadProgress := Pct 100;
        currentFileName := currentFileName ui |},
     [SetTimeout CbResetUI 3000])
  else
    (l, ui, [ReadAsArrayBuffer (slice (content (file l)) (offset l) (offset l + c))]).

(** [reader.onload] inside [sendLoop]; [result] is [event.target.result]. *)
Definition onload (c : N) (e : Env) (result : list byte) (l : StreamLoop) (ui : SenderUI)
  : StreamLoop * SenderUI * list Effect :=
  if negb (isOpen e) then (l, ui, [])
  else
    let offset' := offset l + c in
    ({| file := file l; fileId := fileId l; offset := offset' |},
     {| sendingState := sendingState ui;
        uploadProgress := RoundPct offset' (fsize (file l));
        currentFileName := currentFileName ui |},
     [Send (CHUNK (fileId l) result); SetTimeout CbSendLoop 0]).

(** The 3000 ms callback scheduled at end of file. *)
Definition resetUI (ui : SenderUI) : SenderUI :=
  {| sendingState := idle; uploadProgress := Pct 0; currentFileName := EmptyString |}.

(** What a streaming closure is waiting for. *)
Inductive Pending :=
| PTimer                        (* a scheduled call of sendLoop *)
| PReading (part : list byte)   (* a FileReader read in flight *)
| PStopped.                     (* nothing scheduled: finished or aborted *)

Definition pendingOf (effs : list Effect) : Pending :=
  match last effs with
  | Some (SetTimeout CbSendLoop _) => PTimer
  | Some (ReadAsArrayBuffer part) => PReading part
  | _ => PStopped
  end.

Record LoopState := mkLoopState {
  loop : StreamLoop;
  ui : SenderUI;
  pending : Pending
}.

(** One callback of one streaming closure. *)
Definition loopStep (c : N) (e : Env) (st : LoopState) : LoopState * list Effect :=
  match pending st with
  | PTimer =>
      let '(l, u, effs) := sendLoop c e (loop st) (ui st) in
      ({| loop := l; ui := u; pending := pendingOf effs |}, effs)
  | PReading part =>
      let '(l, u, effs) := onload c e part (loop st) (ui st) in
      ({| loop := l; ui := u; pending := pendingOf effs |}, effs)
  | PStopped => (st, [])
  end.

(** The closure driven through successive callbacks, one environment
    reading per callback; the effects are listed in the order performed. *)
Fixpoint runLoop (c : N) (envs : list Env) (st : LoopState) : LoopState * list Effect :=
  match envs with
  | [] => (st, [])
  | e :: envs' =>
      let '(st1, effs1) := loopStep c e st in
      let '(st2, effs2) := runLoop c envs' st1 in
      (st2, effs1 ++ effs2)
  end.

(** [startStreamingFile(connection, fileId)] up to its first [sendLoop()]
    call, which [runLoop] performs as the first callback. *)
Definition startLoop (f : File) (id : string) (u : SenderUI) : LoopState :=
  {| loop := {| file := f; fileId := id; offset := 0 |};
     ui := {| sendingState := sending; uploadProgress := uploadProgress u;
              currentFileName := currentFileName u |};
     pending := PTimer |}.

Definition sentMessages (effs : list Effect) : list Message :=
  omap (fun e => match e with Send m => Some m | _ => None end) effs.

Definition chunkPayloads (ms : list Message) : list (list byte) :=
  omap (fun m => match m with CHUNK _ chunk => Some chunk | _ => None end) ms.

(** A streaming closure run from its creation, and the chunks it sent. *)
Definition stream (c : N) (f : File) (id : string) (u : SenderUI) (envs : list Env)
  : LoopState * list Effect :=
  runLoop c envs (startLoop f id u).

Definition streamedChunks (c : N) (f : File) (id : string) (u : SenderUI)
  (envs : list Env) : list (list byte) :=
  chunkPayloads (sentMessages (snd (stream c f id u envs))).

(** A read in flight was started below the end of the file and holds the
    slice at the closure's offset. *)
Definition wfLoop (c : N) (st : LoopState) : Prop :=
  match pending st with
  | PReading part =>
      part = slice (content (file (loop st))) (offset (loop st)) (offset (loop st) + c)
      /\ offset (loop st) < fsize (file (loop st))
  | _ => True
  end.

Definition reachedEOF (effs : list Effect) : Prop :=
  SetTimeout CbResetUI 3000 ∈ effs.

Definition flowing (e : Env) : Prop :=
  bufferedAmount e <= HIGH_WATER_MARK /\ isOpen e = true.

(** What one callback can do. *)
Inductive StepCase (c : N) (e : Env) (st : LoopState) : LoopState -> list Effect -> Prop :=
| StepWait :
    pending st = PTimer -> HIGH_WATER_MARK < bufferedAmount e ->
    StepCase c e st st [SetTimeout CbSendLoop 50]
| StepEOF :
    pending st = PTimer -> bufferedAmount e <= HIGH_WATER_MARK ->
    fsize (file (loop st)) <= offset (loop st) ->
    StepCase c e st
      {| loop := loop st;
         ui := {| sendingState := done; uploadProgress := Pct 100;
                  currentFileName := currentFileName (ui st) |};
         pending := PStopped |}
      [SetTimeout CbResetUI 3000]
| StepRead :
    pending st = PTimer -> bufferedAmount e <= HIGH_WATER_MARK ->
    offset (loop st) < fsize (file (loop st)) ->
    let part := slice (content (file (loop st))) (offset (loop st)) (offset (loop st) + c) in
    StepCase c e st
      {| loop := loop st; ui := ui st; pending := PReading part |}
      [ReadAsArrayBuffer part]
| StepAbort part :
    pending st = PReading part -> isOpen e = false ->
    StepCase c e st {| loop := loop st; ui := ui st; pending := PStopped |} []
| StepSend part :
    pending st = PReading part -> isOpen e = true ->
    StepCase c e st
      {| loop := {| file := file (loop st); fileId := fileId (loop st);
                    offset := offset (loop st) + c |};
         ui := {| sendingState := sendingState (ui st);
                  uploadProgress := RoundPct (offset (loop st) + c) (fsize (file (loop st)));
                  currentFileName := currentFileName (ui st) |};
         pending := PTimer |}
      [Send (CHUNK (fileId (loop st)) part); SetTimeout CbSendLoop 0]
| StepNone :
    pending st = PStopped -> StepCase c e st st [].

Definition sampleUI : SenderUI :=
  {| sendingState := waiting_ack; uploadProgress := Pct 0;
     currentFileName := "a.txt" |}.

(** The sender component: its React state, the file kept for the ACK
    handler, and the callbacks that are scheduled but have not run yet.
    A streaming closure has at most one callback outstanding, which
    carries the closure's current state. *)
Inductive Task :=
| TSendLoop (l : StreamLoop)                     (* setTimeout(sendLoop, _) *)
| TOnload (l : StreamLoop) (part : list byte)    (* reader.onload *)
| TResetUI.                                      (* the 3000 ms reset *)

Definition scheduled (l : StreamLoop) (effs : list Effect) : list Task :=
  omap (fun e => match e with
                 | SetTimeout CbSendLoop _ => Some (TSendLoop l)
                 | SetTimeout CbResetUI _ => Some TResetUI
                 | ReadAsArrayBuffer part => Some (TOnload l part)
                 | Send _ => None
                 end) effs.

Record Sender := mkSender {
  senderConn : bool;               (* conn is non-null *)
  senderStatus : string;
  fileToSendRef : option File;
  senderUI : SenderUI;
  tasks : list Task
}.

Definition initSender : Sender :=
  {| senderConn := false; senderStatus := EmptyString; fileToSendRef := None;
     senderUI := {| sendingState := idle; uploadProgress := Pct 0;
                    currentFileName := EmptyString |};
     tasks := [] |}.

(** [initiateSend]: [picked] is [e.target.files[0]], [rnd] the id drawn
    from [Math.random()].  The object literal it sends names the key
    [type] twice, first with ['HEADER'] and last with [file.type]; the
    last one is the value of the property. *)
Definition initiateSend (picked : option File) (rnd : string) (s : Sender)
  : Sender * list Message :=
  match picked with
  | None => (s, [])
  | Some f =>
      if negb (senderConn s) then (s, [])
      else
        ({| senderConn := senderConn s; senderStatus := senderStatus s;
            fileToSendRef := Some f;
            senderUI := {| sendingState := waiting_ack; uploadProgress := Pct 0;
                           currentFileName := fname f |};
            tasks := tasks s |},
         [Announce (ftype f) rnd (fname f) (fsize f)])
  end.

(** [startStreamingFile(connection, fileId)], including the first,
    synchronous call of [sendLoop]. *)
Definition startStreamingFile (e : Env) (id : string) (s : Sender)
  : Sender * list Message :=
  let u := {| sendingState := sending;
              uploadProgress := uploadProgress (senderUI s);
              currentFileName := currentFileName (senderUI s) |} in
  match fileToSendRef s with
  | None =>
      ({| senderConn := senderConn s; senderStatus := senderStatus s;
          fileToSendRef := None; senderUI := u; tasks := tasks s |}, [])
  | Some f =>
      let '(l, u', effs) :=
        sendLoop CHUNK_SIZE e {| file := f; fileId := id; offset := 0 |} u in
      ({| senderConn := senderConn s; senderStatus := senderStatus s;
          fileToSendRef := Some f; senderUI := u';
          tasks := tasks s ++ scheduled l effs |},
       sentMessages effs)
  end.

(** The sender's [connection.on('data')] handler. *)
Definition senderOnData (e : Env) (data : Message) (s : Sender) : Sender * list Message :=
  if bool_decide (messageType data = "ACK")
  then startStreamingFile e (messageId data) s
  else (s, []).

(** The [i]-th outstanding callback runs. *)
Definition fire (i : nat) (e : Env) (s : Sender) : Sender * list Message :=
  match tasks s !! i with
  | None => (s, [])
  | Some t =>
      let rest := delete i (tasks s) in
      match t with
      | TSendLoop l =>
          let '(l', u', effs) := sendLoop CHUNK_SIZE e l (senderUI s) in
          ({| senderConn := senderConn s; senderStatus := senderStatus s;
              fileToSendRef := fileToSendRef s; senderUI := u';
              tasks := rest ++ scheduled l' effs |},
           sentMessages effs)
      | TOnload l part =>
          let '(l', u', effs) := onload CHUNK_SIZE e part l (senderUI s) in
          ({| senderConn := senderConn s; senderStatus := senderStatus s;
              fileToSendRef := fileToSendRef s; senderUI := u';
              tasks := rest ++ scheduled l' effs |},
           sentMessages effs)
      | TResetUI =>
          ({| senderConn := senderConn s; senderStatus := senderStatus s;
              fileToSendRef := fileToSendRef s; senderUI := resetUI (senderUI s);
              tasks := rest |}, [])
      end
  end.

Inductive SenderEvent :=
| EvConnected                                    (* connection.on('open') *)
| EvClosed                                       (* connection.on('close') *)
| EvFileChosen (picked : option File) (rnd : string)
| EvData (data : Message) (e : Env)
| EvFire (i : nat) (e : Env).

Definition senderStep (ev : SenderEvent) (s : Sender) : Sender * list Message :=
  match ev with
  | EvConnected =>
      ({| senderConn := true; senderStatus := "Connected";
          fileToSendRef := fileToSendRef s; senderUI := senderUI s;
          tasks := tasks s |}, [])
  | EvClosed =>
      ({| senderConn := false; senderStatus := "Disconnected";
          fileToSendRef := fileToSendRef s; senderUI := senderUI s;
          tasks := tasks s |}, [])
  | EvFileChosen picked rnd => initiateSend picked rnd s
  | EvData data e => senderOnData e data s
  | EvFire i e => fire i e s
  end.

(** *** Receiver *)

(** An entry of [incomingFilesRef.current]. *)
Record FileMeta := mkFileMeta {
  metaName : string;
  metaSize : N;
  metaType : string;
  receivedBytes : N;
  chunks : list (list byte);
  lastUpdate : N
}.

Inductive CardStatus := receiving | completed.

(** An entry of the [files] list shown by the host.  [url] is the object
    URL of the assembled blob, kept as the blob it denotes;
    [sizeDisplay] is [formatBytes(size)], kept as its argument. *)
Record FileCard := mkFileCard {
  cardId : string;
  cardName : string;
  sizeDisplay : N;
  progress : Percent;
  status : CardStatus;
  url : option Blob
}.

Record Receiver := mkReceiver {
  incomingFilesRef : gmap string FileMeta;
  files : list FileCard;
  receiverConn : bool
}.

Definition initReceiver : Receiver :=
  {| incomingFilesRef := ∅; files := []; receiverConn := false |}.

Definition setProgress (id : string) (p : Percent) (f : FileCard) : FileCard :=
  if decide (cardId f = id) then
    {| cardId := cardId f; cardName := cardName f; sizeDisplay := sizeDisplay f;
       progress := p; status := status f; url := url f |}
  else f.

Definition setCompleted (id : string) (b : Blob) (f : FileCard) : FileCard :=
  if decide (cardId f = id) then
    {| cardId := cardId f; cardName := cardName f; sizeDisplay := sizeDisplay f;
       progress := Pct 100; status := completed; url := Some b |}
  else f.

(** The fields of an entry, as a read through the prototype chain sees
    them. *)
Definition metaFieldTruthy (m : FileMeta) (k : string) : option bool :=
  (list_to_map
     [ ("name", truthyString (metaName m)); ("size", truthyNumber (metaSize m));
       ("type", truthyString (metaType m));
       ("receivedBytes", truthyNumber (receivedBytes m)); ("chunks", true);
       ("lastUpdate", truthyNumber (lastUpdate m)) ] : gmap string bool) !! k.

(** [incomingFilesRef.current[id]] *)
Definition entryOf (r : Receiver) (id : string) : Got FileMeta :=
  jsGet metaFieldTruthy (incomingFilesRef r) id.

(** [finalizeFile(id)], which [handleIncomingData] calls only for an id
    under which it has just found an entry.  [None]: there is no entry
    under [id]. *)
Definition finalizeFile (id : string) (r : Receiver) : option Receiver :=
  match entryOf r id with
  | GotEntry meta =>
      let blob := newBlob (chunks meta) (metaType meta) in
      Some {| incomingFilesRef :=
                <[id := {| metaName := metaName meta; metaSize := metaSize meta;
                           metaType := metaType meta;
                           receivedBytes := receivedBytes meta;
                           chunks := []; lastUpdate := lastUpdate meta |}]>
                  (incomingFilesRef r);
              files := setCompleted id blob <$> files r;
              receiverConn := receiverConn r |}
  | _ => None
  end.

(** The header branch.  The [type] that it stores is the one it
    destructures from the message, which is ['HEADER']. *)
Definition handleHeader (id name : string) (size : N) (now : N) (r : Receiver)
  : Receiver * list Message :=
  ({| incomingFilesRef :=
        <[id := {| metaName := name; metaSize := size; metaType := "HEADER";
                   receivedBytes := 0; chunks := []; lastUpdate := now |}]>
          (incomingFilesRef r);
      files := {| cardId := id; cardName := name; sizeDisplay := size;
                  progress := Pct 0; status := receiving; url := None |}
               :: files r;
      receiverConn := receiverConn r |},
   [ACK id]).

(** The chunk branch.  [None] is the TypeError of [fileMeta.chunks.push]
    when the value read under [id] is truthy but is not an entry; nothing
    has been changed by then. *)
Definition handleChunk (id : string) (chunk : list byte) (now : N) (r : Receiver)
  : option (Receiver * list Message) :=
  match entryOf r id with
  | GotNothing => Some (r, [])
  | GotOther => None
  | GotEntry fileMeta =>
      let received := receivedBytes fileMeta + byteLength chunk in
      let shown := (500 <? now - lastUpdate fileMeta)
                   || (received =? metaSize fileMeta) in
      let r1 :=
        {| incomingFilesRef :=
             <[id := {| metaName := metaName fileMeta;
                        metaSize := metaSize fileMeta;
                        metaType := metaType fileMeta;
                        receivedBytes := received;
                        chunks := chunks fileMeta ++ [chunk];
                        lastUpdate := if shown then now
                                      else lastUpdate fileMeta |}]>
               (incomingFilesRef r);
           files := if shown
                    then setProgress id (RoundPct received (metaSize fileMeta))
                           <$> files r
                    else files r;
           receiverConn := receiverConn r |} in
      if metaSize fileMeta <=? received then
        match finalizeFile id r1 with
        | Some r2 => Some (r2, [])
        | None => None
        end
      else Some (r1, [])
  end.

(** [handleIncomingData(data, connection)]; [now] is [Date.now()], the
    messages returned are those sent back on [connection], and [None] is
    a TypeError.  An announce whose [type] is ['CHUNK'] has no [chunk]
    field: the handler returns when nothing is found under its id and
    throws otherwise, at the latest when it reads [chunk.byteLength]
    (an entry found there has by then been given an undefined chunk, a
    state that [None] does not describe; a file's type is never
    ['CHUNK'], so no announce of [initiateSend] takes this path). *)
Definition handleIncomingData (data : Message) (now : N) (r : Receiver)
  : option (Receiver * list Message) :=
  match data with
  | Announce type id name size =>
      if bool_decide (type = "HEADER") then Some (handleHeader id name size now r)
      else if bool_decide (type = "CHUNK") then
        match entryOf r id with
        | GotNothing => Some (r, [])
        | _ => None
        end
      else Some (r, [])
  | CHUNK id chunk => handleChunk id chunk now r
  | ACK _ => Some (r, [])
  end.

(** The host's [connection.on('close')]: only the connection handle is
    cleared. *)
Definition receiverOnClose (r : Receiver) : Receiver :=
  {| incomingFilesRef := incomingFilesRef r; files := files r;
     receiverConn := false |}.

(** [peer.on('connection')] *)
Definition receiverOnConnection (r : Receiver) : Receiver :=
  {| incomingFilesRef := incomingFilesRef r; files := files r;
     receiverConn := true |}.

(** The artifacts the host offers for download under [id]. *)
Definition artifacts (id : string) (r : Receiver) : list Blob :=
  omap (fun f => if decide (cardId f = id) then url f else None) (files r).

(** A receiver fed a list of messages, each with its arrival time. *)
Fixpoint receiveAll (ms : list (Message * N)) (r : Receiver)
  : option (Receiver * list Message) :=
  match ms with
  | [] => Some (r, [])
  | (m, now) :: ms' =>
      match handleIncomingData m now r with
      | None => None
      | Some (r1, out1) =>
          match receiveAll ms' r1 with
          | None => None
          | Some (r2, out2) => Some (r2, out1 ++ out2)
          end
      end
  end.

(** *** Sender and receiver joined by an ordered channel in each direction *)

Record System := mkSystem {
  sender : Sender;
  receiver : Receiver;
  toReceiver : list Message;     (* sent by the sender, not yet delivered *)
  toSender : list Message        (* sent by the receiver, not yet delivered *)
}.

Definition initSystem : System :=
  {| sender := initSender; receiver := initReceiver;
     toReceiver := []; toSender := [] |}.

Inductive SystemEvent :=
| SysConnected
| SysClosed
| SysHostDestroyed
| SysFileChosen (picked : option File) (rnd : string)
| SysFire (i : nat) (e : Env)
| SysDeliverToReceiver (now : N)
| SysDeliverToSender (e : Env).

(** What an observer of the two peers sees, in order. *)
Inductive Observation :=
| SenderSent (m : Message)
| SenderGot (m : Message)
| ReceiverSent (m : Message)
| ReceiverGot (m : Message).

Definition viaSender (ev : SenderEvent) (sys : System) : System * list Observation :=
  let '(s', out) := senderStep ev (sender sys) in
  ({| sender := s'; receiver := receiver sys;
      toReceiver := toReceiver sys ++ out; toSender := toSender sys |},
   SenderSent <$> out).

Definition systemStep (ev : SystemEvent) (sys : System) : System * list Observation :=
  match ev with
  | SysConnected =>
      let '(sys', obs) := viaSender EvConnected sys in
      ({| sender := sender sys'; receiver := receiverOnConnection (receiver sys');
          toReceiver := toReceiver sys'; toSender := toSender sys' |}, obs)
  | SysClosed =>
      let '(sys', obs) := viaSender EvClosed sys in
      ({| sender := sender sys'; receiver := receiverOnClose (receiver sys');
          toReceiver := toReceiver sys'; toSender := toSender sys' |}, obs)
  | SysHostDestroyed =>
      (* what [destroyHost] does to the entries, the cards and the connection *)
      ({| sender := sender sys; receiver := initReceiver;
          toReceiver := toReceiver sys; toSender := toSender sys |}, [])
  | SysFileChosen picked rnd => viaSender (EvFileChosen picked rnd) sys
  | SysFire i e => viaSender (EvFire i e) sys
  | SysDeliverToReceiver now =>
      match toReceiver sys with
      | [] => (sys, [])
      | m :: rest =>
          match handleIncomingData m now (receiver sys) with
          | None =>
              (* the handler threw: the message is gone and no answer is sent *)
              ({| sender := sender sys; receiver := receiver sys;
                  toReceiver := rest; toSender := toSender sys |},
               [ReceiverGot m])
          | Some (r', out) =>
              ({| sender := sender sys; receiver := r';
                  toReceiver := rest; toSender := toSender sys ++ out |},
               ReceiverGot m :: (ReceiverSent <$> out))
          end
      end
  | SysDeliverToSender e =>
      match toSender sys with
      | [] => (sys, [])
      | m :: rest =>
          let '(sys', obs) :=
            viaSender (EvData m e)
              {| sender := sender sys; receiver := receiver sys;
                 toReceiver := toReceiver sys; toSender := rest |} in
          (sys', SenderGot m :: obs)
      end
  end.

Fixpoint runSystem (evs : list SystemEvent) (sys : System) : System * list Observation :=
  match evs with
  | [] => (sys, [])
  | ev :: evs' =>
      let '(sys1, obs1) := systemStep ev sys in
      let '(sys2, obs2) := runSystem evs' sys1 in
      (sys2, obs1 ++ obs2)
  end.

(** The announces that [initiateSend] sends. *)
Definition isFileAnnounce (m : Message) : Prop :=
  exists f id, m = Announce (ftype f) id (fname f) (fsize f).

(** The state of the joined peers in which no transfer has been
    acknowledged: the sender holds no callback and shows [idle] or
    [waiting_ack], the receiver holds no entry and no card, nothing is on
    the way to the sender, and what is on the way to the receiver are
    announces of files. *)
Record unacknowledged (sys : System) : Prop := mkUnacknowledged {
  un_tasks : tasks (sender sys) = [];
  un_state : sendingState (senderUI (sender sys)) = idle
             \/ sendingState (senderUI (sender sys)) = waiting_ack;
  un_entries : incomingFilesRef (receiver sys) = ∅;
  un_cards : files (receiver sys) = [];
  un_toSender : toSender sys = [];
  un_toReceiver : Forall isFileAnnounce (toReceiver sys)
}.

(** The observations in which a peer answers or streams. *)
Definition isProgress (o : Observation) : Prop :=
  match o with
  | ReceiverSent _ => True
  | SenderGot _ => True
  | SenderSent (CHUNK _ _) => True
  | _ => False
  end.

End AckGated.

(** ** The start / chunk / end iteration with a log console *)

Module StartChunkEnd.

Inductive Message :=
| FileStart (fileId : string) (name : string) (size : N) (mime : string)
| StreamChunk (fileId : string) (chunk : list byte)
| FileEnd (fileId : string).

(** The messages given to [addLog], one constructor per message text;
    the wall-clock prefix that [addLog] adds is left out.  [addLog] puts
    the newest entry first. *)
Inductive LogMsg :=
| LogFileStart (name : string)             (* Signal: FILE START received for .. *)
| LogFileEnd (fileId : string)             (* Signal: FILE END received for .. *)
| LogConnectionClosed                      (* Connection Closed *)
| LogUnknownFile (fileId : string)         (* Warning: Received chunk for unknown file .. *)
| LogFirstChunk (len : N)                  (* First Chunk Received! Size: .. bytes. *)
| LogReceiving (percent : N)               (* Receiving... ..% *)
| LogBufferEmpty (fileId : string)         (* CRITICAL: Buffer empty for ... Transfer failed. *)
| LogFinalizing (count : nat) (total : N)  (* Finalizing: .. chunks collected. Total: .. bytes. *)
| LogSuccess                               (* SUCCESS: File ready. *)
| LogStartingUpload (name : string)        (* Starting Upload: .. *)
| LogUploadComplete                        (* Upload Complete. Sending END signal. *)
| LogConnectionLost.                       (* Connection lost. *)

(** *** Sender *)

Definition CHUNK_SIZE : N := 16 * 1024.

Record SenderUI := mkSenderUI {
  uploadProgress : Percent;
  currentFileName : string;
  senderLogs : list LogMsg
}.

(** The closure created by one call of [sendFile]. *)
Record StreamLoop := mkStreamLoop {
  file : File;
  fileId : string;
  offset : N
}.

Inductive Callback := CbSendNextChunk | CbResetUI.

Inductive Effect :=
| Send (m : Message)
| SetTimeout (cb : Callback) (delay : N)
| ReadAsArrayBuffer (part : list byte).

Definition addSenderLog (msg : LogMsg) (u : SenderUI) : SenderUI :=
  {| uploadProgress := uploadProgress u; currentFileName := currentFileName u;
     senderLogs := msg :: senderLogs u |}.

Definition setUploadProgress (p : Percent) (u : SenderUI) : SenderUI :=
  {| uploadProgress := p; currentFileName := currentFileName u;
     senderLogs := senderLogs u |}.

(** [sendNextChunk], for a chunk size [c]; the source fixes
    [c = CHUNK_SIZE]. *)
Definition sendNextChunk (c : N) (l : StreamLoop) (u : SenderUI)
  : StreamLoop * SenderUI * list Effect :=
  if fsize (file l) <=? offset l then
    (l, setUploadProgress (Pct 100) (addSenderLog LogUploadComplete u),
     [Send (FileEnd (fileId l)); SetTimeout CbResetUI 2500])
  else
    (l, u, [ReadAsArrayBuffer (slice (content (file l)) (offset l) (offset l + c))]).

(** [reader.onload] inside [sendNextChunk]. *)
Definition onload (c : N) (e : Env) (result : list byte) (l : StreamLoop) (u : SenderUI)
  : StreamLoop * SenderUI * list Effect :=
  if negb (isOpen e) then (l, addSenderLog LogConnectionLost u, [])
  else
    let offset' := offset l + c in
    ({| file := file l; fileId := fileId l; offset := offset' |},
     setUploadProgress (RoundPct offset' (fsize (file l))) u,
     [Send (StreamChunk (fileId l) result); SetTimeout CbSendNextChunk 0]).

(** The 2500 ms callback scheduled with the end signal. *)
Definition resetUI (u : SenderUI) : SenderUI :=
  {| uploadProgress := Pct 0; currentFileName := EmptyString;
     senderLogs := senderLogs u |}.

Inductive Pending :=
| PTimer
| PReading (part : list byte)
| PStopped.

Definition pendingOf (effs : list Effect) : Pending :=
  match last effs with
  | Some (SetTimeout CbSendNextChunk _) => PTimer
  | Some (ReadAsArrayBuffer part) => PReading part
  | _ => PStopped
  end.

Record LoopState := mkLoopState {
  loop : StreamLoop;
  ui : SenderUI;
  pending : Pending
}.

(** [sendFile] with a file picked and a connection present: the start
    signal goes out at once and [sendNextChunk] is scheduled 100 ms
    later.  [rnd] is the id drawn from [Math.random()]. *)
Definition sendFile (f : File) (rnd : string) (u : SenderUI) : LoopState * list Effect :=
  ({| loop := {| file := f; fileId := rnd; offset := 0 |};
      ui := {| uploadProgress := Pct 1; currentFileName := fname f;
               senderLogs := LogStartingUpload (fname f) :: senderLogs u |};
      pending := PTimer |},
   [Send (FileStart rnd (fname f) (fsize f) (ftype f));
    SetTimeout CbSendNextChunk 100]).

Definition loopStep (c : N) (e : Env) (st : LoopState) : LoopState * list Effect :=
  match pending st with
  | PTimer =>
      let '(l, u, effs) := sendNextChunk c (loop st) (ui st) in
      ({| loop := l; ui := u; pending := pendingOf effs |}, effs)
  | PReading part =>
      let '(l, u, effs) := onload c e part (loop st) (ui st) in
      ({| loop := l; ui := u; pending := pendingOf effs |}, effs)
  | PStopped => (st, [])
  end.

Fixpoint runLoop (c : N) (envs : list Env) (st : LoopState) : LoopState * list Effect :=
  match envs with
  | [] => (st, [])
  | e :: envs' =>
      let '(st1, effs1) := loopStep c e st in
      let '(st2, effs2) := runLoop c envs' st1 in
      (st2, effs1 ++ effs2)
  end.

(** A whole upload: [sendFile] followed by the callbacks it leads to. *)
Definition upload (c : N) (f : File) (rnd : string) (u : SenderUI) (envs : list Env)
  : LoopState * list Effect :=
  let '(st0, effs0) := sendFile f rnd u in
  let '(st, effs) := runLoop c envs st0 in
  (st, effs0 ++ effs).

Definition sentMessages (effs : list Effect) : list Message :=
  omap (fun e => match e with Send m => Some m | _ => None end) effs.

Definition chunkPayloads (ms : list Message) : list (list byte) :=
  omap (fun m => match m with StreamChunk _ chunk => Some chunk | _ => None end) ms.

Definition uploadedChunks (c : N) (f : File) (rnd : string) (u : SenderUI)
  (envs : list Env) : list (list byte) :=
  chunkPayloads (sentMessages (snd (upload c f rnd u envs))).

(** A read in flight was started below the end of the file and holds the
    slice at the closure's offset. *)
Definition wfLoop (c : N) (st : LoopState) : Prop :=
  match pending st with
  | PReading part =>
      part = slice (content (file (loop st))) (offset (loop st)) (offset (loop st) + c)
      /\ offset (loop st) < fsize (file (loop st))
  | _ => True
  end.

(** The things one callback can do. *)
Inductive StepCase (c : N) (e : Env) (st : LoopState) : LoopState -> list Effect -> Prop :=
| StepEOF :
    pending st = PTimer ->
    fsize (file (loop st)) <= offset (loop st) ->
    StepCase c e st
      {| loop := loop st;
         ui := setUploadProgress (Pct 100) (addSenderLog LogUploadComplete (ui st));
         pending := PStopped |}
      [Send (FileEnd (fileId (loop st))); SetTimeout CbResetUI 2500]
| StepRead :
    pending st = PTimer ->
    offset (loop st) < fsize (file (loop st)) ->
    let part := slice (content (file (loop st))) (offset (loop st)) (offset (loop st) + c) in
    StepCase c e st
      {| loop := loop st; ui := ui st; pending := PReading part |}
      [ReadAsArrayBuffer part]
| StepAbort part :
    pending st = PReading part -> isOpen e = false ->
    StepCase c e st
      {| loop := loop st; ui := addSenderLog LogConnectionLost (ui st);
         pending := PStopped |} []
| StepSend part :
    pending st = PReading part -> isOpen e = true ->
    StepCase c e st
      {| loop := {| file := file (loop st); fileId := fileId (loop st);
                    offset := offset (loop st) + c |};
         ui := setUploadProgress
                 (RoundPct (offset (loop st) + c) (fsize (file (loop st)))) (ui st);
         pending := PTimer |}
      [Send (StreamChunk (fileId (loop st)) part); SetTimeout CbSendNextChunk 0]
| StepNone :
    pending st = PStopped -> StepCase c e st st [].

Definition sampleUI : SenderUI :=
  {| uploadProgress := Pct 0; currentFileName := EmptyString; senderLogs := [] |}.

(** *** Receiver *)

(** An entry of [incomingBuffer.current].  The fallback entry made by
    [handleStreamChunk] has no [startTime]. *)
Record Buffer := mkBuffer {
  bufName : string;
  bufSize : N;
  bufType : string;
  received : N;
  chunks : list (list byte);
  lastLog : N;
  startTime : option N
}.

(** An entry of the [files] list.  [entrySize] is the received byte count
    that the source formats as kilobytes. *)
Record FileEntry := mkFileEntry {
  entryId : string;
  entryName : string;
  entrySize : N;
  url : Blob;
  timestamp : N
}.

Record Receiver := mkReceiver {
  incomingBuffer : gmap string Buffer;
  files : list FileEntry;
  logs : list LogMsg;
  receiverConn : bool
}.

Definition initReceiver : Receiver :=
  {| incomingBuffer := ∅; files := []; logs := []; receiverConn := false |}.

Definition addLog (msg : LogMsg) (r : Receiver) : Receiver :=
  {| incomingBuffer := incomingBuffer r; files := files r;
     logs := msg :: logs r; receiverConn := receiverConn r |}.

Definition setBuffer (fileId : string) (b : Buffer) (r : Receiver) : Receiver :=
  {| incomingBuffer := <[fileId := b]> (incomingBuffer r); files := files r;
     logs := logs r; receiverConn := receiverConn r |}.

Definition fallbackBuffer : Buffer :=
  {| bufName := "Unknown File"; bufSize := 0; bufType := "application/octet-stream";
     received := 0; chunks := []; lastLog := 0; startTime := None |}.

(** The fields of a buffer, as a read through the prototype chain sees
    them. *)
Definition bufferFieldTruthy (b : Buffer) (k : string) : option bool :=
  (list_to_map
     ([ ("name", truthyString (bufName b)); ("size", truthyNumber (bufSize b));
        ("type", truthyString (bufType b)); ("received", truthyNumber (received b));
        ("chunks", true); ("lastLog", truthyNumber (lastLog b)) ]
      ++ match startTime b with
         | Some t => [ ("startTime", truthyNumber t) ]
         | None => []
         end) : gmap string bool) !! k.

(** [incomingBuffer.current[fileId]] *)
Definition bufferOf (r : Receiver) (fileId : string) : Got Buffer :=
  jsGet bufferFieldTruthy (incomingBuffer r) fileId.

(** Whether the data handler throws on a message: it does when the value
    it reads under the id of a chunk or of an end signal is truthy but is
    not a buffer. *)
Definition receiverThrows (data : Message) (r : Receiver) : bool :=
  match data with
  | FileStart _ _ _ _ => false
  | StreamChunk fileId _ | FileEnd fileId =>
      match bufferOf r fileId with
      | GotOther => true
      | _ => false
      end
  end.

Section Receiving.

(** [Math.floor((received / size) * 100)], a floating-point expression
    that the progress log branches on. *)
Variable floorPercent : N -> N -> N.

(** [handleStreamChunk(data)]: the state it leaves.  When the value read
    under [fileId] is truthy but is not a buffer, [buffer.chunks.push]
    throws a TypeError and nothing has been changed by then. *)
Definition handleStreamChunk (fileId : string) (chunk : list byte) (r : Receiver)
  : Receiver :=
  let r1 :=
    match bufferOf r fileId with
    | GotNothing => setBuffer fileId fallbackBuffer (addLog (LogUnknownFile fileId) r)
    | _ => r
    end in
  match bufferOf r1 fileId with
  | GotEntry buffer =>
      let chunks' := chunks buffer ++ [chunk] in
      let received' := received buffer + byteLength chunk in
      let r2 := if decide (length chunks' = 1%nat)
                then addLog (LogFirstChunk (byteLength chunk)) r1 else r1 in
      let percent := floorPercent received' (bufSize buffer) in
      let logged := (0 <? bufSize buffer)
                    && (percent mod 20 =? 0) && negb (percent =? lastLog buffer) in
      let r3 := if logged then addLog (LogReceiving percent) r2 else r2 in
      setBuffer fileId
        {| bufName := bufName buffer; bufSize := bufSize buffer;
           bufType := bufType buffer; received := received';
           chunks := chunks';
           lastLog := if logged then percent else lastLog buffer;
           startTime := startTime buffer |} r3
  | _ => r1
  end.

(** [finishFile(fileId)]: the state it leaves; [now] stands for the time
    of day put in the entry.  When the value read under [fileId] is truthy
    but is not a buffer, [buffer.chunks.length] throws a TypeError and
    nothing has been changed by then. *)
Definition finishFile (fileId : string) (now : N) (r : Receiver) : Receiver :=
  match bufferOf r fileId with
  | GotNothing => addLog (LogBufferEmpty fileId) r
  | GotOther => r
  | GotEntry buffer =>
      if decide (length (chunks buffer) = 0%nat) then addLog (LogBufferEmpty fileId) r
      else
        let r1 := addLog (LogFinalizing (length (chunks buffer)) (received buffer)) r in
        let blob := newBlob (chunks buffer) (bufType buffer) in
        let newFile := {| entryId := fileId; entryName := bufName buffer;
                          entrySize := received buffer; url := blob;
                          timestamp := now |} in
        {| incomingBuffer := jsDelete fileId (incomingBuffer r1);
           files := newFile :: files r1;
           logs := LogSuccess :: logs r1;
           receiverConn := receiverConn r1 |}
  end.

(** The host's [connection.on('data')] handler: the state it leaves. *)
Definition receiverOnData (data : Message) (now : N) (r : Receiver) : Receiver :=
  match data with
  | FileStart fileId name size mime =>
      setBuffer fileId
        {| bufName := name; bufSize := size; bufType := mime; received := 0;
           chunks := []; lastLog := 0; startTime := Some now |}
        (addLog (LogFileStart name) r)
  | StreamChunk fileId chunk => handleStreamChunk fileId chunk r
  | FileEnd fileId => finishFile fileId now (addLog (LogFileEnd fileId) r)
  end.

(** The host's [connection.on('close')] handler. *)
Definition receiverOnClose (r : Receiver) : Receiver :=
  {| incomingBuffer := ∅; files := files r;
     logs := LogConnectionClosed :: logs r; receiverConn := false |}.

Fixpoint receiveAll (ms : list (Message * N)) (r : Receiver) : Receiver :=
  match ms with
  | [] => r
  | (m, now) :: ms' => receiveAll ms' (receiverOnData m now r)
  end.

End Receiving.

(** The artifacts the host offers for download under [fileId]. *)
Definition artifacts (fileId : string) (r : Receiver) : list Blob :=
  omap (fun f => if decide (entryId f = fileId) then Some (url f) else None) (files r).

(** Every buffer's byte count is the total length of the chunks it holds. *)
Definition countsBufferedBytes (r : Receiver) : Prop :=
  forall fileId b, incomingBuffer r !! fileId = Some b ->
                   received b = totalLength (chunks b).

(** The value of [Math.floor((received / size) * 100)] at the byte counts
    of the sample runs: 1 of 100, 4 of 5 and 5 of 5.  No sample run
    evaluates it elsewhere. *)
Definition sampleFloorPercent (r s : N) : N :=
  match r, s with
  | 1, 100 => 1
  | 4, 5 => 80
  | 5, 5 => 100
  | _, _ => 0
  end.

End StartChunkEnd.

(** ** Room names

    Every iteration turns the name typed by the host into a peer id with
    [customId.trim().replace(/\s+/g, '-').toLowerCase()] and the name
    typed by the sender with
    [targetId.trim().toLowerCase().replace(/\s+/g, '-')].  Names are
    strings of code units below 256. *)

Module RoomName.
Import Stdlib.Strings.Ascii.

(** The code units below 256 that [\s] and [trim] treat as white space:
    TAB, LF, VT, FF, CR, SPACE and NO-BREAK SPACE. *)
Definition isWhiteSpace (a : ascii) : bool :=
  let n := N_of_ascii a in
  ((9 <=? n) && (n <=? 13)) || (n =? 32) || (n =? 160).

(** The lower-case mapping of a code unit below 256: A-Z, and U+00C0 to
    U+00DE without the multiplication sign U+00D7, move up by 32. *)
Definition lowerChar (a : ascii) : ascii :=
  let n := N_of_ascii a in
  if ((65 <=? n) && (n <=? 90))
     || ((192 <=? n) && (n <=? 222) && negb (n =? 215))
  then ascii_of_N (n + 32) else a.

Fixpoint toLowerCase (s : string) : string :=
  match s with
  | EmptyString => EmptyString
  | String a s' => String (lowerChar a) (toLowerCase s')
  end.

Fixpoint trimStart (s : string) : string :=
  match s with
  | EmptyString => EmptyString
  | String a s' => if isWhiteSpace a then trimStart s' else s
  end.

Fixpoint trimEnd (s : string) : string :=
  match s with
  | EmptyString => EmptyString
  | String a s' =>
      match trimEnd s' with
      | EmptyString => if isWhiteSpace a then EmptyString else String a EmptyString
      | t => String a t
      end
  end.

Definition trim (s : string) : string := trimEnd (trimStart s).

(** [replace(/\s+/g, '-')]: every maximal run of white space becomes one
    dash.  [inRun] tells that the previous code unit was white space. *)
Fixpoint dashRuns (inRun : bool) (s : string) : string :=
  match s with
  | EmptyString => EmptyString
  | String a s' =>
      if isWhiteSpace a then
        if inRun then dashRuns true s' else String "-"%char (dashRuns true s')
      else String a (dashRuns false s')
  end.

Definition replaceWhiteSpace (s : string) : string := dashRuns false s.

(** [cleanId] of [startHosting]. *)
Definition hostId (customId : string) : string :=
  toLowerCase (replaceWhiteSpace (trim customId)).

(** The argument of [peer.connect] in [connectToHost]. *)
Definition senderId (targetId : string) : string :=
  replaceWhiteSpace (toLowerCase (trim targetId)).

Fixpoint allChars (p : ascii -> bool) (s : string) : bool :=
  match s with
  | EmptyString => true
  | String a s' => p a && allChars p s'
  end.

Definition isLowered (a : ascii) : bool := Ascii.eqb (lowerChar a) a.

(** [connectToHost] up to [peer.connect]: nothing happens without a
    target name. *)
Definition connectTarget (targetId : string) : option string :=
  if decide (targetId = EmptyString) then None else Some (senderId targetId).

End RoomName.

(** ** The host of the ACK-gated iteration *)

Module AckGatedHost.
Import AckGated.

Inductive Role := home | host | senderRole.

(** The object made by [new Peer(cleanId)]. *)
Record Peer := mkPeer {
  requestedId : string;
  destroyed : bool
}.

Record Host := mkHost {
  role : Role;
  customId : string;
  peerId : string;
  hostStatus : string;
  hostError : string;
  peerEngine : option Peer;
  rx : Receiver
}.

(** [startHosting], with PeerJS loaded. *)
Definition startHosting (h : Host) : Host :=
  if decide (customId h = EmptyString) then
    {| role := role h; customId := customId h; peerId := peerId h;
       hostStatus := hostStatus h;
       hostError := "Please enter a name for your shop.";
       peerEngine := peerEngine h; rx := rx h |}
  else
    {| role := role h; customId := customId h; peerId := peerId h;
       hostStatus := "Starting Host..."; hostError := EmptyString;
       peerEngine := Some {| requestedId := RoomName.hostId (customId h);
                             destroyed := false |};
       rx := rx h |}.

(** [destroyHost] *)
Definition destroyHost (h : Host) : Host :=
  {| role := home; customId := EmptyString; peerId := EmptyString;
     hostStatus := hostStatus h; hostError := hostError h;
     peerEngine := (fun p => {| requestedId := requestedId p; destroyed := true |})
                     <$> peerEngine h;
     rx := {| incomingFilesRef := ∅; files := []; receiverConn := false |} |}.

Definition cardsOf (id : string) (r : Receiver) : list FileCard :=
  filter (fun f => cardId f = id) (files r).

(** The [disabled] attribute of the sender's file input. *)
Definition fileInputDisabled (conn : bool) (u : SenderUI) : bool :=
  negb conn || match sendingState u with idle => false | _ => true end.

End AckGatedHost.

(** ** Ids, entries and the progress log of the start / chunk / end receiver *)

Module StartChunkEndHost.
Import StartChunkEnd.

Definition messageId (m : Message) : string :=
  match m with
  | FileStart fileId _ _ _ => fileId
  | StreamChunk fileId _ => fileId
  | FileEnd fileId => fileId
  end.

Definition entriesOf (fileId : string) (r : Receiver) : list FileEntry :=
  filter (fun f => entryId f = fileId) (files r).

(** Progress is logged in steps of 20: the percentages in the log and the
    last logged percentage of every buffer are multiples of 20. *)
Definition loggedInSteps (r : Receiver) : Prop :=
  (forall fileId b, incomingBuffer r !! fileId = Some b -> lastLog b mod 20 = 0)
  /\ (forall percent, LogReceiving percent ∈ logs r -> percent mod 20 = 0).

End StartChunkEndHost.

(** ** The single-shot iteration: the whole file in one message *)

Module SingleShot.

(** Data arriving at the host: a ['file-chunk'] message or anything
    else.  [sender] is absent when the message has no such field. *)
Inductive Message :=
| FileChunk (name mime : string) (size : N) (content : list byte)
            (sender : option string)
| Other (type : string).

(** An entry of the host's [files] list.  [entryId] and [timestamp] come
    from the clock; [entrySize] is the announced size that the source
    formats as kilobytes. *)
Record FileEntry := mkFileEntry {
  entryId : N;
  entryName : string;
  entrySize : N;
  url : Blob;
  entrySender : string;
  timestamp : N
}.

Record Host := mkHost {
  files : list FileEntry;
  hostStatus : string;
  hostConn : bool
}.

(** [data.sender || 'Unknown'] *)
Definition senderOrUnknown (sender : option string) : string :=
  match sender with
  | None => "Unknown"
  | Some EmptyString => "Unknown"
  | Some s => s
  end.

(** [handleReceivedFile(data)] *)
Definition handleReceivedFile (name mime : string) (size : N) (content : list byte)
    (sender : option string) (now : N) (h : Host) : Host :=
  {| files := {| entryId := now; entryName := name; entrySize := size;
                 url := newBlob [content] mime;
                 entrySender := senderOrUnknown sender;
                 timestamp := now |} :: files h;
     hostStatus := "File Received!";
     hostConn := hostConn h |}.

(** The host's [connection.on('data', ..)]. *)
Definition hostOnData (data : Message) (now : N) (h : Host) : Host :=
  match data with
  | FileChunk name mime size content sender =>
      handleReceivedFile name mime size content sender now h
  | Other _ => h
  end.

Record Sender := mkSender {
  senderConn : bool;
  senderStatus : string;
  uploadProgress : N
}.

Inductive Effect :=
| Send (m : Message)
| SetTimeout (delay : N)
| ReadAsArrayBuffer (whole : list byte).

(** [sendFile] up to the start of the read. *)
Definition sendFile (picked : option File) (s : Sender) : Sender * list Effect :=
  match picked with
  | None => (s, [])
  | Some f =>
      if negb (senderConn s) then (s, [])
      else
        ({| senderConn := senderConn s;
            senderStatus := "Sending " +:+ fname f +:+ "...";
            uploadProgress := 10 |},
         [ReadAsArrayBuffer (content f)])
  end.

(** [reader.onload] of [sendFile]. *)
Definition onload (f : File) (result : list byte) (s : Sender) : Sender * list Effect :=
  ({| senderConn := senderConn s; senderStatus := "Sent Successfully!";
      uploadProgress := 100 |},
   [Send (FileChunk (fname f) (ftype f) (fsize f) result (Some "Customer"));
    SetTimeout 2000]).

(** [sendFile] with its read completed: the messages put on the
    connection. *)
Definition sendWhole (picked : option File) (s : Sender) : Sender * list Message :=
  match picked, sendFile picked s with
  | Some f, (s1, [ReadAsArrayBuffer whole]) =>
      let '(s2, effs) := onload f whole s1 in
      (s2, omap (fun e => match e with Send m => Some m | _ => None end) effs)
  | _, (s1, _) => (s1, [])
  end.

End SingleShot.

(** ** Facts about [slice] *)

Lemma byteLength_app (a b : list byte) :
  byteLength (a ++ b) = byteLength a + byteLength b.
Proof. unfold byteLength. rewrite length_app. lia. Qed.

Lemma slice_length (bs : list byte) (a b : N) :
  byteLength (slice bs a b) = N.min b (byteLength bs) - N.min a (byteLength bs).
Proof.
  unfold slice, byteLength. rewrite length_take, length_drop. lia.
Qed.

Lemma slice_app (bs : list byte) (a b d : N) :
  a <= b -> b <= d -> slice bs a b ++ slice bs b d = slice bs a d.
Proof.
  intros Hab Hbd. unfold slice.
  set (n := byteLength bs).
  replace (N.to_nat (N.min d n - N.min a n))
    with (N.to_nat (N.min b n - N.min a n) + N.to_nat (N.min d n - N.min b n))%nat by lia.
  rewrite <- take_take_drop, drop_drop.
  replace (N.to_nat (N.min a n) + N.to_nat (N.min b n - N.min a n))%nat
    with (N.to_nat (N.min b n)) by lia.
  reflexivity.
Qed.

Lemma slice_nil (bs : list byte) (a : N) : slice bs a a = [].
Proof. unfold slice. rewrite N.sub_diag. reflexivity. Qed.

Lemma slice_all (bs : list byte) (b : N) :
  byteLength bs <= b -> slice bs 0 b = bs.
Proof.
  intros H. unfold slice. rewrite N.min_0_l, N.sub_0_r. simpl.
  apply take_ge. unfold byteLength in *. lia.
Qed.

Lemma slice_full_length (bs : list byte) (a c : N) :
  a + c <= byteLength bs -> byteLength (slice bs a (a + c)) = c.
Proof. intros H. rewrite slice_length. lia. Qed.

Lemma slice_last_length (bs : list byte) (a c : N) :
  a < byteLength bs -> byteLength bs <= a + c ->
  byteLength (slice bs a (a + c)) = byteLength bs - a.
Proof. intros H1 H2. rewrite slice_length. lia. Qed.

(** ** Facts about [chunksFrom] *)

Lemma chunksFrom_length c bs o k : length (chunksFrom c bs o k) = k.
Proof. revert o. induction k as [|k IH]; intros o; simpl; [done|]. by rewrite IH. Qed.

Lemma chunksFrom_concat c bs o k :
  concat (chunksFrom c bs o k) = slice bs o (o + N.of_nat k * c).
Proof.
  revert o. induction k as [|k IH]; intros o.
  - simpl. rewrite N.add_0_r. symmetry. apply slice_nil.
  - cbn [chunksFrom concat]. rewrite IH, slice_app by lia.
    f_equal. lia.
Qed.

Lemma chunksFrom_lookup c bs o k (i : nat) :
  (i < k)%nat ->
  chunksFrom c bs o k !! i = Some (slice bs (o + N.of_nat i * c) (o + N.of_nat i * c + c)).
Proof.
  revert o i. induction k as [|k IH]; intros o i Hi; [lia|].
  destruct i as [|i]; simpl.
  - by rewrite N.add_0_r.
  - rewrite IH by lia. do 2 f_equal; lia.
Qed.

(** ** The ACK-gated send loop *)

Module AckGatedFacts.
Import AckGated.

Lemma runLoop_stopped c envs st :
  pending st = PStopped -> runLoop c envs st = (st, []).
Proof.
  intros H. induction envs as [|e envs IH]; [done|].
  simpl. unfold loopStep. rewrite H, IH. done.
Qed.

Lemma runLoop_cons c e envs st :
  runLoop c (e :: envs) st =
  (fst (runLoop c envs (fst (loopStep c e st))),
   snd (loopStep c e st) ++ snd (runLoop c envs (fst (loopStep c e st)))).
Proof.
  cbn [runLoop]. destruct (loopStep c e st) as [st1 effs1]. cbn [fst snd].
  destruct (runLoop c envs st1) as [st2 effs2]. reflexivity.
Qed.

Lemma runLoop_app c envs1 envs2 st :
  runLoop c (envs1 ++ envs2) st =
  (fst (runLoop c envs2 (fst (runLoop c envs1 st))),
   snd (runLoop c envs1 st) ++ snd (runLoop c envs2 (fst (runLoop c envs1 st)))).
Proof.
  revert st. induction envs1 as [|e envs1 IH]; intros st.
  - simpl. by destruct (runLoop c envs2 st).
  - rewrite <- app_comm_cons, !runLoop_cons, IH. simpl. by rewrite app_assoc.
Qed.

Lemma loopStep_cases c e st :
  StepCase c e st (fst (loopStep c e st)) (snd (loopStep c e st)).
Proof.
  unfold loopStep. destruct st as [l u p]. destruct p as [|part|]; simpl.
  - unfold sendLoop.
    destruct (N.ltb_spec HIGH_WATER_MARK (bufferedAmount e)) as [Hb|Hb]; simpl.
    + by apply StepWait.
    + destruct (N.leb_spec (fsize (file l)) (offset l)) as [Ho|Ho]; simpl.
      * by apply (StepEOF c e (mkLoopState l u PTimer)).
      * by apply (StepRead c e (mkLoopState l u PTimer)).
  - unfold onload. destruct (isOpen e) eqn:Hopen; simpl.
    + by apply (StepSend c e (mkLoopState l u (PReading part))).
    + by apply (StepAbort c e (mkLoopState l u (PReading part)) part).
  - by apply StepNone.
Qed.

Lemma sentMessages_app effs1 effs2 :
  sentMessages (effs1 ++ effs2) = sentMessages effs1 ++ sentMessages effs2.
Proof. unfold sentMessages. apply omap_app. Qed.

(** What a run of the closure sends, whatever the environment does. *)
Lemma runLoop_chunks c envs st :
  wfLoop c st ->
  let st' := fst (runLoop c envs st) in
  let effs := snd (runLoop c envs st) in
  exists k : nat,
    offset (loop st') = offset (loop st) + N.of_nat k * c
    /\ file (loop st') = file (loop st)
    /\ fileId (loop st') = fileId (loop st)
    /\ sentMessages effs =
         CHUNK (fileId (loop st)) <$> chunksFrom c (content (file (loop st))) (offset (loop st)) k
    /\ (k <> O -> offset (loop st) + N.of_nat (k - 1) * c < fsize (file (loop st)))
    /\ wfLoop c st'
    /\ (reachedEOF effs ->
        fsize (file (loop st)) <= offset (loop st') /\ pending st' = PStopped
        /\ sendingState (ui st') = done).
Proof.
  assert (Hnil : forall P : Prop, reachedEOF [] -> P).
  { intros P HE. by apply elem_of_nil in HE. }
  revert st. induction envs as [|e envs IH]; intros st Hwf.
  - exists O. simpl. rewrite N.add_0_r. split_and!; try done. apply Hnil.
  - cbv zeta. rewrite runLoop_cons. cbn [fst snd].
    pose proof (loopStep_cases c e st) as Hc.
    destruct Hc as [Hp Hb|Hp Hb Ho|Hp Hb Ho part|part Hp Ho|part Hp Ho|Hp].
    + (* wait *)
      destruct (IH st Hwf) as (k & H1 & H2 & H3 & H4 & H5 & H6 & H7).
      exists k. rewrite sentMessages_app. cbn [app sentMessages omap].
      split_and!; try done.
      intros HE. apply H7. unfold reachedEOF in *.
      apply elem_of_cons in HE as [HE|HE]; [discriminate|done].
    + (* end of file *)
      rewrite runLoop_stopped by done. cbn [fst snd loop ui pending].
      exists O. rewrite N.add_0_r, app_nil_r. split_and!; done.
    + (* read *)
      set (st1 := {| loop := loop st; ui := ui st; pending := PReading part |}).
      assert (Hwf1 : wfLoop c st1) by (unfold wfLoop; simpl; done).
      destruct (IH st1 Hwf1) as (k & H1 & H2 & H3 & H4 & H5 & H6 & H7).
      exists k. rewrite sentMessages_app. cbn [app sentMessages omap].
      split_and!; try done.
      intros HE. apply H7. unfold reachedEOF in *.
      apply elem_of_cons in HE as [HE|HE]; [discriminate|done].
    + (* abort *)
      rewrite runLoop_stopped by done. cbn [fst snd loop ui pending].
      exists O. rewrite N.add_0_r. split_and!; try done. apply Hnil.
    + (* send *)
      match goal with |- context [runLoop c envs ?s] => set (st1 := s) end.
      assert (Hwf1 : wfLoop c st1) by (unfold wfLoop; simpl; done).
      destruct (IH st1 Hwf1) as (k & H1 & H2 & H3 & H4 & H5 & H6 & H7).
      unfold wfLoop in Hwf. rewrite Hp in Hwf. destruct Hwf as [-> Hlt].
      exists (S k). rewrite sentMessages_app, H4. cbn [app sentMessages omap]. subst st1. cbn [loop file fileId offset] in *.
      split_and!; try done.
      * rewrite H1. lia.
      * intros _. destruct k as [|k].
        -- cbn [Nat.sub N.of_nat]. lia.
        -- specialize (H5 ltac:(lia)).
           replace (S (S k) - 1)%nat with (S (S k - 1))%nat by lia.
           rewrite Nat2N.inj_succ, N.mul_succ_l. lia.
      * intros HE. apply H7. unfold reachedEOF in *.
        apply elem_of_cons in HE as [HE|HE]; [discriminate|].
        apply elem_of_cons in HE as [HE|HE]; [discriminate|done].
    + (* stopped *)
      rewrite runLoop_stopped by done. cbn [fst snd].
      exists O. rewrite N.add_0_r. split_and!; try done. apply Hnil.
Qed.

(** With the channel open and below the mark, the closure reaches the end
    of the file within two callbacks per remaining byte, plus one. *)
Lemma runLoop_finishes c (m : nat) :
  0 < c ->
  forall st envs,
    pending st = PTimer ->
    (N.to_nat (fsize (file (loop st)) - offset (loop st)) <= m)%nat ->
    Forall flowing envs ->
    (2 * m + 1 <= length envs)%nat ->
    reachedEOF (snd (runLoop c envs st)).
Proof.
  intros Hc. induction m as [|m IH]; intros st envs Hp Hm Hfl Hlen.
  - destruct envs as [|e envs]; [simpl in Hlen; lia|].
    apply Forall_cons in Hfl as [[Hb Hopen] Hfl].
    rewrite runLoop_cons. cbn [snd].
    destruct (loopStep_cases c e st); try congruence; try lia.
    + unfold reachedEOF. apply elem_of_app. left. by apply list_elem_of_singleton.
  - destruct envs as [|e envs]; [simpl in Hlen; lia|].
    apply Forall_cons in Hfl as [[Hb Hopen] Hfl].
    rewrite runLoop_cons. cbn [snd].
    destruct (loopStep_cases c e st); try congruence; try lia.
    + unfold reachedEOF. apply elem_of_app. left. by apply list_elem_of_singleton.
    + cbn [fst].
      destruct envs as [|e2 envs]; [simpl in Hlen; lia|].
      apply Forall_cons in Hfl as [[Hb2 Hopen2] Hfl].
      rewrite runLoop_cons. cbn [snd].
      match goal with |- context [loopStep c e2 ?s] => set (st1 := s) end.
      destruct (loopStep_cases c e2 st1); subst st1; cbn [pending] in *;
        try congruence.
      cbn [fst loop ui].
      unfold reachedEOF. apply elem_of_app. right. apply elem_of_app. right.
      apply IH; cbn [pending loop file offset]; try done.
      * lia.
      * simpl in Hlen. lia.
Qed.

(** While the buffered amount stays above the mark the closure only
    re-arms its 50 ms timer. *)
Lemma runLoop_blocked c blocked st :
  pending st = PTimer ->
  Forall (fun e => HIGH_WATER_MARK < bufferedAmount e) blocked ->
  runLoop c blocked st = (st, (fun _ => SetTimeout CbSendLoop 50) <$> blocked).
Proof.
  intros Hp Hbl. induction Hbl as [|e blocked He Hbl IH]; [done|].
  rewrite runLoop_cons.
  destruct (loopStep_cases c e st); try congruence; try lia.
  cbn [fst snd]. rewrite IH. done.
Qed.

Lemma chunkPayloads_chunks id (l : list (list byte)) :
  chunkPayloads (CHUNK id <$> l) = l.
Proof. unfold chunkPayloads. induction l as [|x l IH]; [done|]. simpl. by f_equal. Qed.

(** A stream that reached the end of the file sent exactly the chunks of
    a complete split, and nothing else. *)
Lemma stream_complete c f id u envs :
  reachedEOF (snd (stream c f id u envs)) ->
  exists k : nat,
    sentMessages (snd (stream c f id u envs)) = CHUNK id <$> chunksFrom c (content f) 0 k
    /\ fsize f <= N.of_nat k * c
    /\ (k <> O -> N.of_nat (k - 1) * c < fsize f)
    /\ sendingState (ui (fst (stream c f id u envs))) = done.
Proof.
  intros HE. unfold stream in *.
  destruct (runLoop_chunks c envs (startLoop f id u) I)
    as (k & H1 & H2 & H3 & H4 & H5 & H6 & H7).
  destruct (H7 HE) as (Ho & Hp & Hd).
  cbn [startLoop loop file fileId offset] in *.
  rewrite H1 in Ho.
  exists k. split_and!;
    first [done | lia | intros Hk; specialize (H5 Hk); lia].
Qed.

End AckGatedFacts.

(** ** The start / chunk / end send loop *)

Module StartChunkEndFacts.
Import StartChunkEnd.

Lemma runLoop_stopped_sce c envs st :
  pending st = PStopped -> runLoop c envs st = (st, []).
Proof.
  intros H. induction envs as [|e envs IH]; [done|].
  simpl. unfold loopStep. rewrite H, IH. done.
Qed.

Lemma runLoop_cons_sce c e envs st :
  runLoop c (e :: envs) st =
  (fst (runLoop c envs (fst (loopStep c e st))),
   snd (loopStep c e st) ++ snd (runLoop c envs (fst (loopStep c e st)))).
Proof.
  cbn [runLoop]. destruct (loopStep c e st) as [st1 effs1]. cbn [fst snd].
  destruct (runLoop c envs st1) as [st2 effs2]. reflexivity.
Qed.

Lemma runLoop_app_sce c envs1 envs2 st :
  runLoop c (envs1 ++ envs2) st =
  (fst (runLoop c envs2 (fst (runLoop c envs1 st))),
   snd (runLoop c envs1 st) ++ snd (runLoop c envs2 (fst (runLoop c envs1 st)))).
Proof.
  revert st. induction envs1 as [|e envs1 IH]; intros st.
  - simpl. by destruct (runLoop c envs2 st).
  - rewrite <- app_comm_cons, !runLoop_cons_sce, IH. simpl. by rewrite app_assoc.
Qed.

Lemma sentMessages_app_sce effs1 effs2 :
  sentMessages (effs1 ++ effs2) = sentMessages effs1 ++ sentMessages effs2.
Proof. unfold sentMessages. apply omap_app. Qed.

Lemma loopStep_cases_sce c e st :
  StepCase c e st (fst (loopStep c e st)) (snd (loopStep c e st)).
Proof.
  unfold loopStep. destruct st as [l u p]. destruct p as [|part|]; simpl.
  - unfold sendNextChunk.
    destruct (N.leb_spec (fsize (file l)) (offset l)) as [Ho|Ho]; simpl.
    + by apply (StepEOF c e (mkLoopState l u PTimer)).
    + by apply (StepRead c e (mkLoopState l u PTimer)).
  - unfold onload. destruct (isOpen e) eqn:Hopen; simpl.
    + by apply (StepSend c e (mkLoopState l u (PReading part))).
    + by apply (StepAbort c e (mkLoopState l u (PReading part)) part).
  - by apply StepNone.
Qed.

(** What a run of the closure sends, whatever the environment does:
    successive chunks, closed by the end signal exactly when [fin]. *)
Lemma runLoop_chunks_sce c envs st :
  wfLoop c st ->
  let st' := fst (runLoop c envs st) in
  let effs := snd (runLoop c envs st) in
  exists (k : nat) (fin : bool),
    offset (loop st') = offset (loop st) + N.of_nat k * c
    /\ file (loop st') = file (loop st)
    /\ fileId (loop st') = fileId (loop st)
    /\ sentMessages effs =
         (StreamChunk (fileId (loop st))
            <$> chunksFrom c (content (file (loop st))) (offset (loop st)) k)
         ++ (if fin then [FileEnd (fileId (loop st))] else [])
    /\ (k <> O -> offset (loop st) + N.of_nat (k - 1) * c < fsize (file (loop st)))
    /\ wfLoop c st'
    /\ (fin = true ->
        fsize (file (loop st)) <= offset (loop st') /\ pending st' = PStopped
        /\ uploadProgress (ui st') = Pct 100)
    /\ (fin = false -> pending st <> PStopped -> pending st' = PStopped ->
        offset (loop st') < fsize (file (loop st))).
Proof.
  revert st. induction envs as [|e envs IH]; intros st Hwf.
  - exists O, false. simpl. rewrite N.add_0_r. split_and!; done.
  - cbv zeta. rewrite runLoop_cons_sce. cbn [fst snd].
    pose proof (loopStep_cases_sce c e st) as Hc.
    destruct Hc as [Hp Ho|Hp Ho part|part Hp Ho|part Hp Ho|Hp].
    + (* end of file *)
      rewrite runLoop_stopped_sce by done. cbn [fst snd loop ui pending].
      exists O, true. rewrite N.add_0_r, app_nil_r. split_and!; done.
    + (* read *)
      set (st1 := {| loop := loop st; ui := ui st; pending := PReading part |}).
      assert (Hwf1 : wfLoop c st1) by (unfold wfLoop; simpl; done).
      destruct (IH st1 Hwf1) as (k & fin & H1 & H2 & H3 & H4 & H5 & H6 & H7 & H8).
      exists k, fin. rewrite sentMessages_app_sce. cbn [app sentMessages omap].
      split_and!; try done.
      intros Hf _. by apply H8.
    + (* abort *)
      rewrite runLoop_stopped_sce by done. cbn [fst snd loop ui pending].
      exists O, false. rewrite N.add_0_r. split_and!; try done.
      intros _ _ _. unfold wfLoop in Hwf. rewrite Hp in Hwf. by destruct Hwf.
    + (* send *)
      match goal with |- context [runLoop c envs ?s] => set (st1 := s) end.
      assert (Hwf1 : wfLoop c st1) by (unfold wfLoop; simpl; done).
      destruct (IH st1 Hwf1) as (k & fin & H1 & H2 & H3 & H4 & H5 & H6 & H7 & H8).
      unfold wfLoop in Hwf. rewrite Hp in Hwf. destruct Hwf as [-> Hlt].
      exists (S k), fin. rewrite sentMessages_app_sce, H4. cbn [app sentMessages omap].
      subst st1. cbn [loop file fileId offset pending] in *.
      split_and!; try done.
      * rewrite H1. lia.
      * intros _. destruct k as [|k].
        -- cbn [Nat.sub N.of_nat]. lia.
        -- specialize (H5 ltac:(lia)).
           replace (S (S k) - 1)%nat with (S (S k - 1))%nat by lia.
           rewrite Nat2N.inj_succ, N.mul_succ_l. lia.
      * intros Hf _. by apply H8.
    + (* stopped *)
      rewrite runLoop_stopped_sce by done. cbn [fst snd].
      exists O, false. rewrite N.add_0_r. split_and!; done.
Qed.

(** With the channel open the closure reaches the end of the file and
    sends the end signal. *)
Lemma runLoop_finishes_sce c (m : nat) :
  0 < c ->
  forall st envs,
    pending st = PTimer ->
    (N.to_nat (fsize (file (loop st)) - offset (loop st)) <= m)%nat ->
    Forall (fun e => isOpen e = true) envs ->
    (2 * m + 1 <= length envs)%nat ->
    FileEnd (fileId (loop st)) ∈ sentMessages (snd (runLoop c envs st)).
Proof.
  intros Hc. induction m as [|m IH]; intros st envs Hp Hm Hfl Hlen.
  - destruct envs as [|e envs]; [simpl in Hlen; lia|].
    rewrite runLoop_cons_sce. cbn [snd]. rewrite sentMessages_app_sce.
    destruct (loopStep_cases_sce c e st); try congruence; try lia.
    apply elem_of_app. left. by apply list_elem_of_singleton.
  - destruct envs as [|e envs]; [simpl in Hlen; lia|].
    apply Forall_cons in Hfl as [Hopen Hfl].
    rewrite runLoop_cons_sce. cbn [snd]. rewrite sentMessages_app_sce.
    destruct (loopStep_cases_sce c e st); try congruence; try lia.
    + apply elem_of_app. left. by apply list_elem_of_singleton.
    + cbn [fst].
      destruct envs as [|e2 envs]; [simpl in Hlen; lia|].
      apply Forall_cons in Hfl as [Hopen2 Hfl].
      rewrite runLoop_cons_sce. cbn [snd]. rewrite sentMessages_app_sce.
      match goal with |- context [loopStep c e2 ?s] => set (st1 := s) end.
      destruct (loopStep_cases_sce c e2 st1); subst st1; cbn [pending] in *;
        try congruence.
      cbn [fst loop ui].
      apply elem_of_app. right. apply elem_of_app. right.
      match goal with |- context [runLoop c envs ?s] => set (st2 := s) end.
      change (fileId (loop st)) with (fileId (loop st2)).
      apply IH; subst st2; cbn [pending loop file offset]; try done.
      * lia.
      * simpl in Hlen. lia.
Qed.

Lemma chunkPayloads_chunks_sce id (l : list (list byte)) tl :
  chunkPayloads ((StreamChunk id <$> l) ++ tl) = l ++ chunkPayloads tl.
Proof. unfold chunkPayloads. induction l as [|x l IH]; [done|]. simpl. by f_equal. Qed.

(** An upload that sent the end signal sent the start signal, the chunks
    of a complete split and the end signal, in that order. *)
Lemma upload_complete c f rnd u envs :
  FileEnd rnd ∈ sentMessages (snd (upload c f rnd u envs)) ->
  exists k : nat,
    sentMessages (snd (upload c f rnd u envs)) =
      FileStart rnd (fname f) (fsize f) (ftype f)
      :: (StreamChunk rnd <$> chunksFrom c (content f) 0 k) ++ [FileEnd rnd]
    /\ fsize f <= N.of_nat k * c
    /\ (k <> O -> N.of_nat (k - 1) * c < fsize f).
Proof.
  unfold upload, sendFile.
  match goal with |- context [runLoop c envs ?s] => set (st0 := s) end.
  destruct (runLoop_chunks_sce c envs st0 I)
    as (k & fin & H1 & H2 & H3 & H4 & H5 & H6 & H7 & H8).
  destruct (runLoop c envs st0) as [st effs] eqn:Hrun.
  cbn [fst snd] in *. rewrite sentMessages_app_sce, H4.
  subst st0. cbn [sentMessages omap app loop file fileId offset] in *.
  intros HE. destruct fin.
  - destruct (H7 eq_refl) as (Ho & Hp & _). rewrite H1 in Ho.
    exists k. split_and!;
      first [done | lia | intros Hk; specialize (H5 Hk); lia].
  - exfalso. rewrite app_nil_r in HE.
    apply elem_of_cons in HE as [HE|HE]; [discriminate|].
    apply list_elem_of_fmap in HE as (x & Hx & _). discriminate.
Qed.

End StartChunkEndFacts.

(** ** A complete split *)

Section CompleteSplit.

Variables (c : N) (bs : list byte) (k : nat).
Hypothesis c_pos : 0 < c.
Hypothesis covers : byteLength bs <= N.of_nat k * c.
Hypothesis last_started : k <> O -> N.of_nat (k - 1) * c < byteLength bs.

Lemma complete_split_concat : concat (chunksFrom c bs 0 k) = bs.
Proof. rewrite chunksFrom_concat. apply slice_all. lia. Qed.

Lemma complete_split_count : N.of_nat k = (byteLength bs + c - 1) / c.
Proof.
  destruct k as [|k'].
  - simpl in covers. assert (byteLength bs = 0) as -> by lia.
    symmetry. apply N.div_small. lia.
  - specialize (last_started ltac:(lia)).
    replace (S k' - 1)%nat with k' in last_started by lia.
    rewrite Nat2N.inj_succ, N.mul_succ_l in covers.
    rewrite Nat2N.inj_succ.
    apply (N.div_unique _ _ _ (byteLength bs - 1 - N.of_nat k' * c)); lia.
Qed.

Lemma complete_split_lengths (i : nat) (ch : list byte) :
  chunksFrom c bs 0 k !! i = Some ch ->
  byteLength ch =
    if decide (S i < k)%nat then c
    else if byteLength bs mod c =? 0 then c else byteLength bs mod c.
Proof.
  intros Hi.
  assert (Hik : (i < k)%nat).
  { apply lookup_lt_Some in Hi. by rewrite chunksFrom_length in Hi. }
  rewrite chunksFrom_lookup in Hi by done. injection Hi as <-.
  rewrite N.add_0_l.
  specialize (last_started ltac:(lia)).
  destruct (decide (S i < k)%nat) as [Hlt|Hge].
  - apply slice_full_length.
    assert (N.of_nat i * c + c <= N.of_nat (k - 1) * c); [|lia].
    replace (N.of_nat i * c + c) with (N.of_nat (S i) * c)
      by (rewrite Nat2N.inj_succ, N.mul_succ_l; lia).
    apply N.mul_le_mono_r. lia.
  - assert (k = S i) as Hk by lia. subst k.
    replace (S i - 1)%nat with i in last_started by lia.
    rewrite Nat2N.inj_succ, N.mul_succ_l in covers.
    rewrite slice_last_length by lia.
    set (r := byteLength bs - N.of_nat i * c).
    assert (Hsize : byteLength bs = N.of_nat i * c + r) by lia.
    destruct (decide (r = c)) as [Hr|Hr].
    + assert (byteLength bs mod c = 0) as ->; [|simpl; lia].
      rewrite Hsize, Hr.
      replace (N.of_nat i * c + c) with (N.succ (N.of_nat i) * c) by lia.
      apply N.Div0.mod_mul.
    + assert (byteLength bs mod c = r) as ->.
      { symmetry. apply (N.mod_unique _ _ (N.of_nat i)); lia. }
      destruct (N.eqb_spec r 0); lia.
Qed.

End CompleteSplit.

(** ** The sender's split and the flow-control gate *)

(** With the channel open (and below the mark) a send loop gets to the
    end of the file. *)
Lemma stream_reaches_end (c : N) (f : File) (id : string) u envs :
  0 < c ->
  Forall AckGated.flowing envs ->
  (2 * length (content f) + 1 <= length envs)%nat ->
  AckGated.reachedEOF (snd (AckGated.stream c f id u envs)).
Proof.
  intros Hc Hfl Hlen. unfold AckGated.stream.
  apply (AckGatedFacts.runLoop_finishes c (length (content f))); try done.
  simpl. unfold fsize, byteLength. lia.
Qed.

Lemma upload_reaches_end (c : N) (f : File) (id : string) u envs :
  0 < c ->
  Forall (fun e => isOpen e = true) envs ->
  (2 * length (content f) + 1 <= length envs)%nat ->
  StartChunkEnd.FileEnd id
    ∈ StartChunkEnd.sentMessages (snd (StartChunkEnd.upload c f id u envs)).
Proof.
  intros Hc Hfl Hlen. unfold StartChunkEnd.upload, StartChunkEnd.sendFile.
  match goal with |- context [StartChunkEnd.runLoop c envs ?s] => set (st0 := s) end.
  pose proof (StartChunkEndFacts.runLoop_finishes_sce c (length (content f)) Hc st0 envs
                eq_refl) as HF.
  destruct (StartChunkEnd.runLoop c envs st0) as [st effs]. cbn [fst snd] in *.
  rewrite StartChunkEndFacts.sentMessages_app_sce. apply elem_of_app. right.
  apply HF; try done. subst st0. simpl. unfold fsize, byteLength. lia.
Qed.

(** C8.  For every file of [N] bytes and chunk size [c > 0], a send loop
    that reaches the end of the file has emitted [ceil(N / c)] chunks,
    each of length exactly [c] except the last, whose length is
    [N mod c], or [c] when [c] divides [N]; with the channel open the
    loop does reach the end.  The chunk size of both iterations is
    16 KiB. *)
Theorem chunk_lengths (c : N) (f : File) (id : string) :
  0 < c ->
  AckGated.CHUNK_SIZE = 16384 /\ StartChunkEnd.CHUNK_SIZE = 16384
  /\ (forall u envs,
      AckGated.reachedEOF (snd (AckGated.stream c f id u envs)) ->
      let sent := AckGated.streamedChunks c f id u envs in
      N.of_nat (length sent) = (fsize f + c - 1) / c
      /\ forall (i : nat) ch, sent !! i = Some ch ->
           byteLength ch =
             if decide (S i < length sent)%nat then c
             else if fsize f mod c =? 0 then c else fsize f mod c)
  /\ (forall u envs,
      StartChunkEnd.FileEnd id
        ∈ StartChunkEnd.sentMessages (snd (StartChunkEnd.upload c f id u envs)) ->
      let sent := StartChunkEnd.uploadedChunks c f id u envs in
      N.of_nat (length sent) = (fsize f + c - 1) / c
      /\ forall (i : nat) ch, sent !! i = Some ch ->
           byteLength ch =
             if decide (S i < length sent)%nat then c
             else if fsize f mod c =? 0 then c else fsize f mod c)
  /\ (forall u envs,
      Forall AckGated.flowing envs ->
      (2 * length (content f) + 1 <= length envs)%nat ->
      AckGated.reachedEOF (snd (AckGated.stream c f id u envs)))
  /\ (forall u envs,
      Forall (fun e => isOpen e = true) envs ->
      (2 * length (content f) + 1 <= length envs)%nat ->
      StartChunkEnd.FileEnd id
        ∈ StartChunkEnd.sentMessages (snd (StartChunkEnd.upload c f id u envs))).
Proof.
  intros Hc. split_and!; try reflexivity.
  - intros u envs HE.
    destruct (AckGatedFacts.stream_complete c f id u envs HE) as (k & Hs & Hcov & Hlast & _).
    unfold AckGated.streamedChunks. rewrite Hs, AckGatedFacts.chunkPayloads_chunks.
    cbv zeta. rewrite chunksFrom_length. split.
    + exact (complete_split_count c (content f) k Hc Hcov Hlast).
    + intros i ch Hi.
      exact (complete_split_lengths c (content f) k Hc Hcov Hlast i ch Hi).
  - intros u envs HE.
    destruct (StartChunkEndFacts.upload_complete c f id u envs HE) as (k & Hs & Hcov & Hlast).
    unfold StartChunkEnd.uploadedChunks. rewrite Hs.
    change (StartChunkEnd.chunkPayloads (?m :: ?l)) with (StartChunkEnd.chunkPayloads l).
    rewrite StartChunkEndFacts.chunkPayloads_chunks_sce. simpl. rewrite app_nil_r.
    rewrite chunksFrom_length. split.
    + exact (complete_split_count c (content f) k Hc Hcov Hlast).
    + intros i ch Hi.
      exact (complete_split_lengths c (content f) k Hc Hcov Hlast i ch Hi).
  - intros u envs Hfl Hlen. by apply stream_reaches_end.
  - intros u envs Hfl Hlen. by apply upload_reaches_end.
Qed.

(** C4.  Whenever [sendLoop] runs while the channel's buffered amount is
    above the 10 MiB mark it sends nothing, reads nothing and re-arms
    itself with a 50 ms timeout, leaving the offset where it was: a run
    through any number of such readings emits no message.  The loop picks
    up from the same state afterwards, and a run that emitted a message
    has met a reading at or below the mark. *)
Theorem backpressure_gate (c : N) (blocked : list Env) (st : AckGated.LoopState) :
  AckGated.pending st = AckGated.PTimer ->
  Forall (fun e => AckGated.HIGH_WATER_MARK < bufferedAmount e) blocked ->
  AckGated.HIGH_WATER_MARK = 10485760
  /\ AckGated.runLoop c blocked st =
       (st, (fun _ => AckGated.SetTimeout AckGated.CbSendLoop 50) <$> blocked)
  /\ AckGated.sentMessages (snd (AckGated.runLoop c blocked st)) = []
  /\ (forall rest,
       AckGated.runLoop c (blocked ++ rest) st =
         (fst (AckGated.runLoop c rest st),
          ((fun _ => AckGated.SetTimeout AckGated.CbSendLoop 50) <$> blocked)
            ++ snd (AckGated.runLoop c rest st)))
  /\ (forall envs,
       AckGated.sentMessages (snd (AckGated.runLoop c envs st)) <> [] ->
       Exists (fun e => bufferedAmount e <= AckGated.HIGH_WATER_MARK) envs).
Proof.
  intros Hp Hbl.
  assert (Hquiet : forall l : list Env,
             AckGated.sentMessages
               ((fun _ => AckGated.SetTimeout AckGated.CbSendLoop 50) <$> l) = []).
  { induction l as [|x l IH]; [done|]. simpl. exact IH. }
  split_and!.
  - reflexivity.
  - by apply AckGatedFacts.runLoop_blocked.
  - rewrite AckGatedFacts.runLoop_blocked by done. apply Hquiet.
  - intros rest. rewrite AckGatedFacts.runLoop_app.
    rewrite (AckGatedFacts.runLoop_blocked c blocked st Hp Hbl). reflexivity.
  - intros envs Hsent.
    destruct (decide (Forall (fun e => AckGated.HIGH_WATER_MARK < bufferedAmount e) envs))
      as [Hall|Hex].
    + exfalso. apply Hsent.
      rewrite AckGatedFacts.runLoop_blocked by done. apply Hquiet.
    + apply not_Forall_Exists in Hex; [|apply _].
      eapply Exists_impl; [exact Hex|]. simpl. intros e He. lia.
Qed.

(** ** The receivers *)


(** ** Media types and object lookups *)

Module MediaTypeFacts.
Import Stdlib.Strings.Ascii.
Import MediaType.

Lemma asciiLower_idem a : asciiLower (asciiLower a) = asciiLower a.
Proof. destruct a as [[] [] [] [] [] [] [] []]; reflexivity. Qed.

Lemma inRange_asciiLower a : inRange (asciiLower a) = inRange a.
Proof. destruct a as [[] [] [] [] [] [] [] []]; reflexivity. Qed.

Lemma lower_idem s : lower (lower s) = lower s.
Proof. induction s as [|a s IH]; [done|]. simpl. by rewrite asciiLower_idem, IH. Qed.

Lemma allInRange_lower s : allInRange (lower s) = allInRange s.
Proof. induction s as [|a s IH]; [done|]. simpl. by rewrite inRange_asciiLower, IH. Qed.

Lemma normalize_idem ty : normalize (normalize ty) = normalize ty.
Proof.
  unfold normalize. destruct (allInRange ty) eqn:E; [|done].
  by rewrite allInRange_lower, E, lower_idem.
Qed.

End MediaTypeFacts.

(** A file's type is in normal form, so it is the type of a blob made
    with it, and it is none of the upper-case message types. *)
Lemma ftype_normal (f : File) : MediaType.normalize (ftype f) = ftype f.
Proof. apply MediaTypeFacts.normalize_idem. Qed.

Lemma newBlob_ftype (parts : list (list byte)) (f : File) :
  newBlob parts (ftype f) = {| blobBytes := concat parts; blobType := ftype f |}.
Proof. unfold newBlob. by rewrite ftype_normal. Qed.

Lemma ftype_not_upper (f : File) (ty : string) :
  MediaType.normalize ty <> ty -> ftype f <> ty.
Proof. intros Hty E. apply Hty. rewrite <- E. apply ftype_normal. Qed.

Lemma ftype_not_HEADER (f : File) : ftype f <> "HEADER".
Proof. by apply ftype_not_upper. Qed.

Lemma ftype_not_CHUNK (f : File) : ftype f <> "CHUNK".
Proof. by apply ftype_not_upper. Qed.

Lemma ftype_not_ACK (f : File) : ftype f <> "ACK".
Proof. by apply ftype_not_upper. Qed.

Section JsGetFacts.
Context {B : Type} (ft : B -> string -> option bool).

Lemma jsGet_own (o : gmap string B) id b :
  o !! id = Some b -> jsGet ft o id = GotEntry b.
Proof. unfold jsGet. by intros ->. Qed.

Lemma jsGet_entry (o : gmap string B) id b :
  jsGet ft o id = GotEntry b <-> o !! id = Some b.
Proof.
  split; [|apply jsGet_own]. unfold jsGet, fromObjectPrototype.
  destruct (o !! id); [congruence|].
  repeat case_match; discriminate.
Qed.

Lemma jsGet_not_entry (o : gmap string B) id :
  o !! id = None -> jsGet ft o id = GotOther \/ jsGet ft o id = GotNothing.
Proof.
  intros E. unfold jsGet, fromObjectPrototype. rewrite E.
  repeat case_match; auto.
Qed.

Lemma jsGet_insert (o : gmap string B) id b :
  jsGet ft (<[id := b]> o) id = GotEntry b.
Proof. apply jsGet_own, lookup_insert_eq. Qed.

(** With no prototype entry, a name that [Object.prototype] does not
    have reads as nothing unless it was assigned. *)
Lemma jsGet_plain (o : gmap string B) id :
  o !! id = None -> o !! "__proto__" = None ->
  id <> "__proto__" -> id ∉ objectPrototypeNames ->
  jsGet ft o id = GotNothing.
Proof.
  intros E Ep Hp Hn. unfold jsGet, fromObjectPrototype. rewrite E, Ep.
  by rewrite bool_decide_eq_false_2, bool_decide_eq_false_2.
Qed.
End JsGetFacts.

Lemma jsDelete_lookup_ne {B : Type} (o : gmap string B) id id' :
  id <> id' -> jsDelete id' o !! id = o !! id.
Proof.
  intros Hne. unfold jsDelete. case_bool_decide; [done|].
  by rewrite lookup_delete_ne.
Qed.

(** ** Receiver buffers *)

Lemma totalLength_snoc (parts : list (list byte)) (part : list byte) :
  totalLength (parts ++ [part]) = totalLength parts + byteLength part.
Proof.
  unfold totalLength. induction parts as [|x parts IH]; simpl; [lia|].
  rewrite IH. lia.
Qed.

Lemma totalLength_concat (parts : list (list byte)) :
  totalLength parts = byteLength (concat parts).
Proof.
  induction parts as [|x parts IH]; [done|].
  simpl. rewrite byteLength_app. unfold totalLength in *. simpl. by rewrite IH.
Qed.

Module StartChunkEndReceiver.
Import StartChunkEnd.

Lemma bufferOf_own r fileId b :
  incomingBuffer r !! fileId = Some b -> bufferOf r fileId = GotEntry b.
Proof. apply jsGet_own. Qed.

Lemma finishFile_failed fileId now r :
  (bufferOf r fileId = GotNothing
   \/ exists b, incomingBuffer r !! fileId = Some b /\ chunks b = []) ->
  finishFile fileId now r = addLog (LogBufferEmpty fileId) r.
Proof.
  intros [H|(b & H & Hb)]; unfold finishFile.
  - by rewrite H.
  - rewrite (bufferOf_own _ _ _ H), Hb. done.
Qed.

Lemma finishFile_thrown fileId now r :
  bufferOf r fileId = GotOther -> finishFile fileId now r = r.
Proof. unfold finishFile. by intros ->. Qed.

Lemma finishFile_finalized fileId now r b :
  incomingBuffer r !! fileId = Some b -> chunks b <> [] ->
  finishFile fileId now r =
    {| incomingBuffer := jsDelete fileId (incomingBuffer r);
       files := {| entryId := fileId; entryName := bufName b;
                   entrySize := received b;
                   url := newBlob (chunks b) (bufType b);
                   timestamp := now |} :: files r;
       logs := LogSuccess :: LogFinalizing (length (chunks b)) (received b) :: logs r;
       receiverConn := receiverConn r |}.
Proof.
  intros H Hb. unfold finishFile. rewrite (bufferOf_own _ _ _ H).
  destruct (decide (length (chunks b) = 0%nat)) as [Hz|_]; [|done].
  destruct (chunks b); [done|discriminate].
Qed.

Lemma handleStreamChunk_thrown floorPercent fileId chunk r :
  bufferOf r fileId = GotOther -> handleStreamChunk floorPercent fileId chunk r = r.
Proof. unfold handleStreamChunk. intros E. by rewrite !E. Qed.

(** What [handleStreamChunk] does to the buffer [b] it appends to: the
    one kept under the id, or the fallback when nothing is read there. *)
Lemma handleStreamChunk_buffer floorPercent fileId chunk r b :
  (incomingBuffer r !! fileId = Some b
   \/ (bufferOf r fileId = GotNothing /\ b = fallbackBuffer)) ->
  let r' := handleStreamChunk floorPercent fileId chunk r in
  files r' = files r
  /\ receiverConn r' = receiverConn r
  /\ (forall other, other <> fileId ->
        incomingBuffer r' !! other = incomingBuffer r !! other)
  /\ exists b',
      incomingBuffer r' !! fileId = Some b'
      /\ chunks b' = chunks b ++ [chunk]
      /\ received b' = received b + byteLength chunk
      /\ bufSize b' = bufSize b /\ bufName b' = bufName b /\ bufType b' = bufType b.
Proof.
  cbv zeta. unfold handleStreamChunk. intros [Hb|[Hb ->]].
  - rewrite !(bufferOf_own _ _ _ Hb).
    repeat match goal with
           | |- context [if ?x then _ else _] => destruct x
           end; cbn; rewrite ?lookup_insert_eq;
      (split_and!; [done|done|by intros; rewrite lookup_insert_ne|eauto 10]).
  - assert (E : bufferOf (setBuffer fileId fallbackBuffer
                            (addLog (LogUnknownFile fileId) r)) fileId
                = GotEntry fallbackBuffer) by apply jsGet_insert.
    rewrite Hb, E.
    repeat match goal with
           | |- context [if ?x then _ else _] => destruct x
           end; cbn; rewrite ?lookup_insert_eq;
      (split_and!; [done|done|by intros; rewrite !lookup_insert_ne|eauto 10]).
Qed.

(** The three things a read under an id can give. *)
Lemma bufferOf_cases r fileId :
  (exists b, incomingBuffer r !! fileId = Some b /\ bufferOf r fileId = GotEntry b)
  \/ (incomingBuffer r !! fileId = None /\ bufferOf r fileId = GotOther)
  \/ (incomingBuffer r !! fileId = None /\ bufferOf r fileId = GotNothing).
Proof.
  destruct (incomingBuffer r !! fileId) as [b|] eqn:E.
  - left. exists b. split; [done|]. by apply bufferOf_own.
  - right. destruct (jsGet_not_entry bufferFieldTruthy _ _ E); auto.
Qed.

End StartChunkEndReceiver.

Module AckGatedReceiver.
Import AckGated.

Lemma setProgress_keeps id p (l : list FileCard) :
  cardId <$> (setProgress id p <$> l) = cardId <$> l
  /\ status <$> (setProgress id p <$> l) = status <$> l
  /\ url <$> (setProgress id p <$> l) = url <$> l.
Proof.
  induction l as [|f l (IH1 & IH2 & IH3)]; [done|].
  cbn [fmap list_fmap] in *. rewrite IH1, IH2, IH3.
  unfold setProgress. by destruct (decide (cardId f = id)).
Qed.

Lemma setCompleted_cards id b (l : list FileCard) :
  cardId <$> (setCompleted id b <$> l) = cardId <$> l
  /\ forall f, f ∈ setCompleted id b <$> l ->
       if decide (cardId f = id) then status f = completed /\ url f = Some b
       else f ∈ l.
Proof.
  split.
  - induction l as [|f l IH]; [done|].
    cbn [fmap list_fmap] in *. rewrite IH.
    unfold setCompleted. by destruct (decide (cardId f = id)).
  - intros f Hf. apply list_elem_of_fmap in Hf as (g & -> & Hg).
    unfold setCompleted. destruct (decide (cardId g = id)) as [Hid|Hid]; simpl.
    + rewrite decide_True by done. done.
    + rewrite decide_False by done. done.
Qed.

(** A chunk for an id without an entry leaves the receiver as it was. *)
Lemma entryOf_own r id meta :
  incomingFilesRef r !! id = Some meta -> entryOf r id = GotEntry meta.
Proof. apply jsGet_own. Qed.

Lemma chunk_without_entry id chunk now r :
  entryOf r id = GotNothing ->
  handleIncomingData (CHUNK id chunk) now r = Some (r, []).
Proof. intros H. unfold handleIncomingData, handleChunk. by rewrite H. Qed.


(** A chunk for an id with an entry that stays below the announced size
    is appended and nothing is finalised. *)
Lemma chunk_below_size id chunk now r meta :
  incomingFilesRef r !! id = Some meta ->
  receivedBytes meta + byteLength chunk < metaSize meta ->
  exists r' meta',
    handleIncomingData (CHUNK id chunk) now r = Some (r', [])
    /\ incomingFilesRef r' !! id = Some meta'
    /\ receivedBytes meta' = receivedBytes meta + byteLength chunk
    /\ chunks meta' = chunks meta ++ [chunk]
    /\ metaSize meta' = metaSize meta
    /\ cardId <$> files r' = cardId <$> files r
    /\ status <$> files r' = status <$> files r
    /\ url <$> files r' = url <$> files r
    /\ metaType meta' = metaType meta.
Proof.
  intros H Hlt. unfold handleIncomingData, handleChunk. rewrite (entryOf_own _ _ _ H).
  destruct (N.leb_spec (metaSize meta) (receivedBytes meta + byteLength chunk)); [lia|].
  eexists _, _. split; [reflexivity|]. cbn [incomingFilesRef files].
  rewrite lookup_insert_eq. split; [reflexivity|]. cbn.
  split_and!; try done;
    destruct (_ || _); try done; apply setProgress_keeps.
Qed.

(** The chunk that reaches or passes the announced size finalises the
    file: the cards of that id carry the blob of all chunks, the chunk
    list is emptied and the byte count is kept. *)
Lemma chunk_reaching_size id chunk now r meta :
  incomingFilesRef r !! id = Some meta ->
  metaSize meta <= receivedBytes meta + byteLength chunk ->
  exists r' meta',
    handleIncomingData (CHUNK id chunk) now r = Some (r', [])
    /\ incomingFilesRef r' !! id = Some meta'
    /\ receivedBytes meta' = receivedBytes meta + byteLength chunk
    /\ chunks meta' = []
    /\ metaSize meta' = metaSize meta
    /\ cardId <$> files r' = cardId <$> files r
    /\ forall f, f ∈ files r' -> cardId f = id ->
         status f = completed
         /\ url f = Some (newBlob (chunks meta ++ [chunk]) (metaType meta)).
Proof.
  intros H Hge. unfold handleIncomingData, handleChunk. rewrite (entryOf_own _ _ _ H).
  destruct (N.leb_spec (metaSize meta) (receivedBytes meta + byteLength chunk)); [|lia].
  unfold finalizeFile, entryOf. cbn [incomingFilesRef files receiverConn].
  rewrite jsGet_insert. cbn [chunks metaType metaName metaSize receivedBytes lastUpdate].
  eexists _, _. split; [reflexivity|]. cbn [incomingFilesRef files].
  rewrite lookup_insert_eq. split; [reflexivity|]. cbn.
  split_and!; try done.
  - destruct (_ || _).
    + rewrite (proj1 (setCompleted_cards _ _ _)). apply setProgress_keeps.
    + apply setCompleted_cards.
  - intros f Hf Hid.
    apply (proj2 (setCompleted_cards _ _ _)) in Hf.
    by rewrite decide_True in Hf.
Qed.

(** Only a chunk can add an artifact; a header adds a card without one. *)
Lemma artifacts_without_chunk data now r r' out id :
  handleIncomingData data now r = Some (r', out) ->
  (forall i ch, data <> CHUNK i ch) ->
  artifacts id r' = artifacts id r.
Proof.
  intros H Hn. destruct data as [type i name size|i|i chunk].
  - cbn in H. repeat case_bool_decide.
    + injection H as <- <-. unfold artifacts. simpl.
      by destruct (decide (i = id)).
    + destruct (entryOf r i); [discriminate| discriminate |by injection H as <- <-].
    + by injection H as <- <-.
  - by injection H as <- <-.
  - by destruct (Hn i chunk).
Qed.


(** The announce of a file is none of the messages that the receiver
    tests for, and is not an ACK either. *)
Lemma file_announce_ignored (f : File) id now r :
  handleIncomingData (Announce (ftype f) id (fname f) (fsize f)) now r = Some (r, []).
Proof.
  cbn. rewrite !bool_decide_eq_false_2; [done| |].
  - apply ftype_not_CHUNK.
  - apply ftype_not_HEADER.
Qed.

End AckGatedReceiver.

(** ** Finish, unknown ids, channel close and empty files *)

(** C2, as stated, fails: a start/chunk/end receiver that was announced
    100 bytes and holds a single byte finalises on the end signal. *)
Lemma short_transfer_is_finalized :
  let r := StartChunkEnd.receiveAll StartChunkEnd.sampleFloorPercent
             [(StartChunkEnd.FileStart "t1" "a.txt" 100 "text/plain", 0);
              (StartChunkEnd.StreamChunk "t1" [Byte.x61], 1)]
             StartChunkEnd.initReceiver in
  let r' := StartChunkEnd.receiverOnData StartChunkEnd.sampleFloorPercent
              (StartChunkEnd.FileEnd "t1") 2 r in
  (StartChunkEnd.received <$> StartChunkEnd.incomingBuffer r !! "t1") = Some 1
  /\ (StartChunkEnd.bufSize <$> StartChunkEnd.incomingBuffer r !! "t1") = Some 100
  /\ StartChunkEnd.files r' =
       [ {| StartChunkEnd.entryId := "t1"; StartChunkEnd.entryName := "a.txt";
            StartChunkEnd.entrySize := 1;
            StartChunkEnd.url := {| blobBytes := [Byte.x61]; blobType := "text/plain" |};
            StartChunkEnd.timestamp := 2 |} ]
  /\ head (StartChunkEnd.logs r') = Some StartChunkEnd.LogSuccess.
Proof. vm_compute. repeat split; reflexivity. Qed.

(** C2, amended.  In the start/chunk/end iteration a finish message fails
    (a CRITICAL log line, nothing else changed) when nothing is read under
    the id or the buffer kept there has an empty chunk list; a buffer with
    at least one chunk is finalised into an artifact of the chunks
    received, under the normal form of the announced type, whatever its
    byte count is against the announced size, and the buffer is then
    deleted (it stays when the id is ["__proto__"], which names the
    prototype and not a property).  In the ACK-gated iteration there is
    no finish message, and a chunk that leaves the byte count of an entry
    below the announced size completes nothing. *)
Theorem finish_outcome (fileId : string) (now : N) (r : StartChunkEnd.Receiver) :
  ((StartChunkEnd.bufferOf r fileId = GotNothing
    \/ exists b, StartChunkEnd.incomingBuffer r !! fileId = Some b
                 /\ StartChunkEnd.chunks b = []) ->
   StartChunkEnd.finishFile fileId now r
     = StartChunkEnd.addLog (StartChunkEnd.LogBufferEmpty fileId) r)
  /\ (forall b,
       StartChunkEnd.incomingBuffer r !! fileId = Some b ->
       StartChunkEnd.chunks b <> [] ->
       let r' := StartChunkEnd.finishFile fileId now r in
       StartChunkEnd.files r' =
         {| StartChunkEnd.entryId := fileId;
            StartChunkEnd.entryName := StartChunkEnd.bufName b;
            StartChunkEnd.entrySize := StartChunkEnd.received b;
            StartChunkEnd.url :=
              {| blobBytes := concat (StartChunkEnd.chunks b);
                 blobType := MediaType.normalize (StartChunkEnd.bufType b) |};
            StartChunkEnd.timestamp := now |} :: StartChunkEnd.files r
       /\ head (StartChunkEnd.logs r') = Some StartChunkEnd.LogSuccess
       /\ StartChunkEnd.incomingBuffer r'
          = jsDelete fileId (StartChunkEnd.incomingBuffer r)
       /\ (fileId <> "__proto__" -> StartChunkEnd.incomingBuffer r' !! fileId = None))
  /\ (forall (r4 : AckGated.Receiver) chunk meta,
       AckGated.incomingFilesRef r4 !! fileId = Some meta ->
       AckGated.receivedBytes meta + byteLength chunk < AckGated.metaSize meta ->
       exists r4',
         AckGated.handleIncomingData (AckGated.CHUNK fileId chunk) now r4 = Some (r4', [])
         /\ AckGated.status <$> AckGated.files r4' = AckGated.status <$> AckGated.files r4
         /\ AckGated.url <$> AckGated.files r4' = AckGated.url <$> AckGated.files r4).
Proof.
  split_and!.
  - apply StartChunkEndReceiver.finishFile_failed.
  - intros b Hb Hne. cbv zeta.
    rewrite (StartChunkEndReceiver.finishFile_finalized fileId now r b Hb Hne).
    cbn. split_and!; try done.
    intros Hp. unfold jsDelete. rewrite bool_decide_eq_false_2 by done.
    apply lookup_delete_eq.
  - intros r4 chunk meta Hm Hlt.
    destruct (AckGatedReceiver.chunk_below_size fileId chunk now r4 meta Hm Hlt)
      as (r4' & meta' & H1 & _ & _ & _ & _ & _ & H2 & H3 & _).
    by exists r4'.
Qed.

(** C3, as stated, fails in both iterations: the ACK-gated receiver drops
    the chunk without any signal, and the start/chunk/end receiver admits
    it into a buffer that the next end signal turns into an artifact. *)
Lemma unannounced_chunk_silent_or_admitted :
  AckGated.handleIncomingData (AckGated.CHUNK "ghost" [Byte.x61]) 5 AckGated.initReceiver
    = Some (AckGated.initReceiver, [])
  /\ let r := StartChunkEnd.handleStreamChunk StartChunkEnd.sampleFloorPercent
                "ghost" [Byte.x61] StartChunkEnd.initReceiver in
     (StartChunkEnd.chunks <$> StartChunkEnd.incomingBuffer r !! "ghost")
       = Some [[Byte.x61]]
     /\ StartChunkEnd.artifacts "ghost"
          (StartChunkEnd.receiverOnData StartChunkEnd.sampleFloorPercent
             (StartChunkEnd.FileEnd "ghost") 9 r)
        = [ {| blobBytes := [Byte.x61]; blobType := "application/octet-stream" |} ].
Proof. vm_compute. repeat split; reflexivity. Qed.

(** C3, amended.  Take a chunk under whose id the receiver reads nothing:
    no header or start signal has made an entry for the id, and the id is
    not a name that the buffer object inherits (a property name of
    [Object.prototype], or a field name of an entry announced under
    ["__proto__"]).  The ACK-gated receiver drops it and leaves its whole
    state as it was, sending nothing.  The start/chunk/end receiver does
    not throw, logs a warning and admits the chunk into a fallback buffer
    named "Unknown File" of announced size 0, which a later end signal
    finalises. *)
Theorem unannounced_chunk (id : string) (chunk : list byte) :
  (forall now r,
      AckGated.entryOf r id = GotNothing ->
      AckGated.handleIncomingData (AckGated.CHUNK id chunk) now r = Some (r, []))
  /\ (forall floorPercent r,
      StartChunkEnd.bufferOf r id = GotNothing ->
      let r' := StartChunkEnd.handleStreamChunk floorPercent id chunk r in
      StartChunkEnd.receiverThrows (StartChunkEnd.StreamChunk id chunk) r = false
      /\ StartChunkEnd.files r' = StartChunkEnd.files r
      /\ StartChunkEnd.logs r' =
           StartChunkEnd.LogFirstChunk (byteLength chunk)
           :: StartChunkEnd.LogUnknownFile id :: StartChunkEnd.logs r
      /\ StartChunkEnd.incomingBuffer r' !! id =
           Some {| StartChunkEnd.bufName := "Unknown File";
                   StartChunkEnd.bufSize := 0;
                   StartChunkEnd.bufType := "application/octet-stream";
                   StartChunkEnd.received := byteLength chunk;
                   StartChunkEnd.chunks := [chunk];
                   StartChunkEnd.lastLog := 0;
                   StartChunkEnd.startTime := None |}
      /\ forall now,
           StartChunkEnd.files (StartChunkEnd.finishFile id now r') =
             {| StartChunkEnd.entryId := id;
                StartChunkEnd.entryName := "Unknown File";
                StartChunkEnd.entrySize := byteLength chunk;
                StartChunkEnd.url :=
                  {| blobBytes := chunk; blobType := "application/octet-stream" |};
                StartChunkEnd.timestamp := now |} :: StartChunkEnd.files r)
  /\ (id <> "__proto__" -> id ∉ objectPrototypeNames ->
      (forall r, AckGated.incomingFilesRef r !! id = None ->
                 AckGated.incomingFilesRef r !! "__proto__" = None ->
                 AckGated.entryOf r id = GotNothing)
      /\ (forall r, StartChunkEnd.incomingBuffer r !! id = None ->
                    StartChunkEnd.incomingBuffer r !! "__proto__" = None ->
                    StartChunkEnd.bufferOf r id = GotNothing)).
Proof.
  split_and!.
  - intros now r. apply AckGatedReceiver.chunk_without_entry.
  - intros floorPercent r Hnone. cbv zeta.
    assert (E : StartChunkEnd.bufferOf
                  (StartChunkEnd.setBuffer id StartChunkEnd.fallbackBuffer
                     (StartChunkEnd.addLog (StartChunkEnd.LogUnknownFile id) r)) id
                = GotEntry StartChunkEnd.fallbackBuffer) by apply jsGet_insert.
    assert (Hr : StartChunkEnd.handleStreamChunk floorPercent id chunk r =
      StartChunkEnd.setBuffer id
        {| StartChunkEnd.bufName := "Unknown File";
           StartChunkEnd.bufSize := 0;
           StartChunkEnd.bufType := "application/octet-stream";
           StartChunkEnd.received := byteLength chunk;
           StartChunkEnd.chunks := [chunk];
           StartChunkEnd.lastLog := 0;
           StartChunkEnd.startTime := None |}
        (StartChunkEnd.addLog (StartChunkEnd.LogFirstChunk (byteLength chunk))
           (StartChunkEnd.setBuffer id StartChunkEnd.fallbackBuffer
              (StartChunkEnd.addLog (StartChunkEnd.LogUnknownFile id) r)))).
    { unfold StartChunkEnd.handleStreamChunk. rewrite Hnone, E. cbn. reflexivity. }
    rewrite Hr. cbn. rewrite Hnone, lookup_insert_eq. split_and!; try done.
    intros now.
    erewrite StartChunkEndReceiver.finishFile_finalized;
      [|cbn; apply lookup_insert_eq|done].
    cbn. unfold newBlob. cbn. by rewrite app_nil_r.
  - intros Hp Hn. split; intros r H1 H2; by apply jsGet_plain.
Qed.

(** C9, as stated, fails in the ACK-gated iteration: after the channel
    closes in the middle of a transfer the partial chunk is still held
    and the card still reads "receiving". *)
Lemma close_keeps_partial_buffer :
  match AckGated.receiveAll
          [(AckGated.HEADER "t1" "a.txt" 10, 0);
           (AckGated.CHUNK "t1" [Byte.x61], 1)] AckGated.initReceiver with
  | Some (r, _) =>
      let r' := AckGated.receiverOnClose r in
      (AckGated.chunks <$> AckGated.incomingFilesRef r' !! "t1") = Some [[Byte.x61]]
      /\ AckGated.files r' = AckGated.files r
      /\ (AckGated.status <$> AckGated.files r') = [AckGated.receiving]
  | None => False
  end.
Proof. vm_compute. repeat split; reflexivity. Qed.

(** C9, amended.  When the channel closes, the close handler of either
    iteration produces no artifact.  The start/chunk/end receiver also
    discards every buffer, so the partial chunk data is released and a
    later end signal for any id only fails, and it surfaces the event as
    a "Connection Closed" line in its log console: a report about the
    connection, not about the transfer that was under way. *)
Theorem channel_close (r : StartChunkEnd.Receiver) (r4 : AckGated.Receiver) :
  let r' := StartChunkEnd.receiverOnClose r in
  StartChunkEnd.incomingBuffer r' = ∅
  /\ StartChunkEnd.files r' = StartChunkEnd.files r
  /\ StartChunkEnd.logs r' = StartChunkEnd.LogConnectionClosed :: StartChunkEnd.logs r
  /\ StartChunkEnd.receiverConn r' = false
  /\ (forall fileId now,
       StartChunkEnd.files (StartChunkEnd.finishFile fileId now r') = StartChunkEnd.files r)
  /\ AckGated.files (AckGated.receiverOnClose r4) = AckGated.files r4
  /\ AckGated.receiverConn (AckGated.receiverOnClose r4) = false.
Proof.
  cbv zeta. split_and!; try reflexivity.
  intros fileId now.
  destruct (StartChunkEndReceiver.bufferOf_cases (StartChunkEnd.receiverOnClose r) fileId)
    as [(b & Hb & _)|[[_ E]|[_ E]]].
  - cbn in Hb. by rewrite lookup_empty in Hb.
  - by rewrite StartChunkEndReceiver.finishFile_thrown.
  - rewrite StartChunkEndReceiver.finishFile_failed; [done|by left].
Qed.

(** C10.  A zero-byte file never yields an artifact and is never reported
    complete.  ACK-gated: the sender's loop sends no chunk at all, a
    header for the file only adds a card that is "receiving" without a
    URL, the announce that [initiateSend] sends for the file changes
    nothing, and no message other than a chunk changes the artifacts.  Start/chunk/end:
    the sender sends the start signal and the end signal, and the
    receiver answers the end signal with the "Buffer empty ... Transfer
    failed" line and adds no file. *)
Theorem zero_byte_transfer (f : File) (id : string) :
  content f = [] ->
  (forall c u envs,
      AckGated.sentMessages (snd (AckGated.stream c f id u envs)) = [])
  /\ (forall now r,
      AckGated.handleIncomingData
        (AckGated.HEADER id (fname f) (fsize f)) now r =
      Some ({| AckGated.incomingFilesRef :=
                 <[id := {| AckGated.metaName := fname f; AckGated.metaSize := 0;
                            AckGated.metaType := "HEADER";
                            AckGated.receivedBytes := 0; AckGated.chunks := [];
                            AckGated.lastUpdate := now |}]>
                   (AckGated.incomingFilesRef r);
               AckGated.files :=
                 {| AckGated.cardId := id; AckGated.cardName := fname f;
                    AckGated.sizeDisplay := 0; AckGated.progress := Pct 0;
                    AckGated.status := AckGated.receiving; AckGated.url := None |}
                 :: AckGated.files r;
               AckGated.receiverConn := AckGated.receiverConn r |},
            [AckGated.ACK id]))
  /\ (forall now r,
      AckGated.handleIncomingData
        (AckGated.Announce (ftype f) id (fname f) (fsize f)) now r = Some (r, []))
  /\ (forall data now r r' out,
      AckGated.handleIncomingData data now r = Some (r', out) ->
      (forall i ch, data <> AckGated.CHUNK i ch) ->
      AckGated.artifacts id r' = AckGated.artifacts id r)
  /\ (forall c u e envs,
      StartChunkEnd.sentMessages (snd (StartChunkEnd.upload c f id u (e :: envs))) =
        [StartChunkEnd.FileStart id (fname f) 0 (ftype f); StartChunkEnd.FileEnd id])
  /\ (forall floorPercent t1 t2 r,
      let r' := StartChunkEnd.receiveAll floorPercent
                  [(StartChunkEnd.FileStart id (fname f) 0 (ftype f), t1);
                   (StartChunkEnd.FileEnd id, t2)] r in
      StartChunkEnd.files r' = StartChunkEnd.files r
      /\ StartChunkEnd.logs r' =
           StartChunkEnd.LogBufferEmpty id :: StartChunkEnd.LogFileEnd id
           :: StartChunkEnd.LogFileStart (fname f) :: StartChunkEnd.logs r).
Proof.
  intros Hempty.
  assert (Hsize : fsize f = 0) by (unfold fsize; rewrite Hempty; done).
  split_and!.
  - intros c u envs. unfold AckGated.stream.
    destruct (AckGatedFacts.runLoop_chunks c envs (AckGated.startLoop f id u) I)
      as (k & _ & _ & _ & H4 & H5 & _).
    rewrite H4. destruct k as [|k]; [done|].
    specialize (H5 ltac:(done)). cbn [AckGated.startLoop AckGated.loop AckGated.file
                                        AckGated.offset] in H5. lia.
  - intros now r. cbn. rewrite Hsize. reflexivity.
  - intros now r. apply AckGatedReceiver.file_announce_ignored.
  - intros data now r r' out. apply AckGatedReceiver.artifacts_without_chunk.
  - intros c u e envs. unfold StartChunkEnd.upload, StartChunkEnd.sendFile.
    match goal with |- context [StartChunkEnd.runLoop c _ ?s] => set (st0 := s) end.
    rewrite StartChunkEndFacts.runLoop_cons_sce.
    destruct (StartChunkEndFacts.loopStep_cases_sce c e st0) as [Hp Ho|Hp Ho part| | |];
      subst st0; cbn [StartChunkEnd.pending StartChunkEnd.loop StartChunkEnd.file
                      StartChunkEnd.offset StartChunkEnd.fileId] in *;
      try discriminate; try lia.
    rewrite StartChunkEndFacts.runLoop_stopped_sce by done.
    cbn. rewrite Hsize. reflexivity.
  - intros floorPercent t1 t2 r. cbv zeta.
    cbn [StartChunkEnd.receiveAll StartChunkEnd.receiverOnData].
    rewrite StartChunkEndReceiver.finishFile_failed; [done|].
    right. eexists. cbn. rewrite lookup_insert_eq. split; reflexivity.
Qed.


(** ** The received byte count *)

Lemma countsBufferedBytes_step floorPercent data now r :
  StartChunkEnd.countsBufferedBytes r ->
  StartChunkEnd.countsBufferedBytes (StartChunkEnd.receiverOnData floorPercent data now r).
Proof.
  intros Hinv. destruct data as [fileId name size mime|fileId chunk|fileId].
  - intros i b. cbn. destruct (decide (fileId = i)) as [->|Hne].
    + rewrite lookup_insert_eq. intros [= <-]. done.
    + rewrite lookup_insert_ne by done. apply Hinv.
  - intros i b'. cbn [StartChunkEnd.receiverOnData].
    assert (Hstep : forall b,
               (StartChunkEnd.incomingBuffer r !! fileId = Some b
                \/ (StartChunkEnd.bufferOf r fileId = GotNothing
                    /\ b = StartChunkEnd.fallbackBuffer)) ->
               StartChunkEnd.received b = totalLength (StartChunkEnd.chunks b) ->
               StartChunkEnd.incomingBuffer
                 (StartChunkEnd.handleStreamChunk floorPercent fileId chunk r) !! i
               = Some b' ->
               StartChunkEnd.received b' = totalLength (StartChunkEnd.chunks b')).
    { intros b Hb Hcount.
      destruct (StartChunkEndReceiver.handleStreamChunk_buffer floorPercent fileId chunk r
                  b Hb) as (_ & _ & Hother & b1 & Hb1 & Hch & Hrec & _).
      destruct (decide (i = fileId)) as [->|Hne].
      - rewrite Hb1. intros [= <-]. rewrite Hch, Hrec, totalLength_snoc. by f_equal.
      - rewrite Hother by done. apply Hinv. }
    destruct (StartChunkEndReceiver.bufferOf_cases r fileId)
      as [(b & Hb & _)|[[_ E]|[_ E]]].
    + apply (Hstep b); [by left|by apply (Hinv fileId)].
    + rewrite StartChunkEndReceiver.handleStreamChunk_thrown by done. apply Hinv.
    + apply (Hstep StartChunkEnd.fallbackBuffer); [by right|done].
  - intros i b. cbn [StartChunkEnd.receiverOnData].
    set (r1 := StartChunkEnd.addLog (StartChunkEnd.LogFileEnd fileId) r).
    destruct (StartChunkEndReceiver.bufferOf_cases r1 fileId)
      as [(b0 & Hb0 & _)|[[_ E]|[_ E]]].
    + destruct (decide (StartChunkEnd.chunks b0 = [])) as [Hc|Hc].
      * rewrite StartChunkEndReceiver.finishFile_failed by eauto. apply Hinv.
      * rewrite (StartChunkEndReceiver.finishFile_finalized _ _ _ _ Hb0 Hc).
        cbn [StartChunkEnd.incomingBuffer]. unfold jsDelete.
        case_bool_decide; [apply Hinv|].
        intros Hd. apply lookup_delete_Some in Hd as [_ Hd]. by apply (Hinv i).
    + rewrite StartChunkEndReceiver.finishFile_thrown by done. apply Hinv.
    + rewrite StartChunkEndReceiver.finishFile_failed by (by left). apply Hinv.
Qed.

(** C7, as stated, fails in the ACK-gated iteration.  The chunk that
    completes a 2-byte transfer leaves a byte count of 2 over an empty
    chunk list; a 3-byte chunk completes the same transfer at a byte
    count of 3, which never equalled the announced 2; and a zero-byte
    transfer has byte count and size equal from the header on while its
    card stays "receiving". *)
Lemma byte_count_outlives_chunks :
  match AckGated.receiveAll
          [(AckGated.HEADER "t1" "a.txt" 2, 0);
           (AckGated.CHUNK "t1" [Byte.x61; Byte.x62], 1)] AckGated.initReceiver with
  | Some (r, _) =>
      (AckGated.receivedBytes <$> AckGated.incomingFilesRef r !! "t1") = Some 2
      /\ (totalLength <$> (AckGated.chunks <$> AckGated.incomingFilesRef r !! "t1")) = Some 0
  | None => False
  end
  /\ match AckGated.receiveAll
          [(AckGated.HEADER "t2" "b.txt" 2, 0);
           (AckGated.CHUNK "t2" [Byte.x61; Byte.x62; Byte.x63], 1)]
          AckGated.initReceiver with
     | Some (r, _) =>
         (AckGated.receivedBytes <$> AckGated.incomingFilesRef r !! "t2") = Some 3
         /\ (AckGated.status <$> AckGated.files r) = [AckGated.completed]
     | None => False
     end
  /\ match AckGated.receiveAll
          [(AckGated.HEADER "t3" "c.txt" 0, 0)] AckGated.initReceiver with
     | Some (r, _) =>
         (AckGated.receivedBytes <$> AckGated.incomingFilesRef r !! "t3") = Some 0
         /\ (AckGated.metaSize <$> AckGated.incomingFilesRef r !! "t3") = Some 0
         /\ (AckGated.status <$> AckGated.files r) = [AckGated.receiving]
     | None => False
     end.
Proof. vm_compute. repeat split; reflexivity. Qed.

(** C7, amended.  Every chunk-append adds the chunk's length to the byte
    count of the buffer it appends to (the one kept under the id, or in
    the start/chunk/end iteration the fallback buffer when nothing is read
    under the id), which therefore never decreases.  In the start/chunk/end
    iteration the byte count of every buffer equals the total length of
    its buffered chunks after each message.  In the ACK-gated iteration
    it does so after every append that leaves it below the announced
    size; the append that reaches or passes the announced size completes
    the transfer under a blob of all chunks, empties the chunk list and
    keeps the byte count. *)
Theorem received_bytes_accounting (id : string) (chunk : list byte) :
  StartChunkEnd.countsBufferedBytes StartChunkEnd.initReceiver
  /\ (forall floorPercent data now r,
       StartChunkEnd.countsBufferedBytes r ->
       StartChunkEnd.countsBufferedBytes
         (StartChunkEnd.receiverOnData floorPercent data now r))
  /\ (forall floorPercent r before,
       (StartChunkEnd.incomingBuffer r !! id = Some before
        \/ (StartChunkEnd.bufferOf r id = GotNothing
            /\ before = StartChunkEnd.fallbackBuffer)) ->
       exists after,
         StartChunkEnd.incomingBuffer
           (StartChunkEnd.handleStreamChunk floorPercent id chunk r) !! id = Some after
         /\ StartChunkEnd.received after = StartChunkEnd.received before + byteLength chunk
         /\ StartChunkEnd.received before <= StartChunkEnd.received after)
  /\ (forall now r meta,
       AckGated.incomingFilesRef r !! id = Some meta ->
       exists r' meta',
         AckGated.handleIncomingData (AckGated.CHUNK id chunk) now r = Some (r', [])
         /\ AckGated.incomingFilesRef r' !! id = Some meta'
         /\ AckGated.receivedBytes meta' = AckGated.receivedBytes meta + byteLength chunk
         /\ AckGated.receivedBytes meta <= AckGated.receivedBytes meta'
         /\ AckGated.metaSize meta' = AckGated.metaSize meta
         /\ (AckGated.receivedBytes meta' < AckGated.metaSize meta ->
             AckGated.chunks meta' = AckGated.chunks meta ++ [chunk]
             /\ (AckGated.receivedBytes meta = totalLength (AckGated.chunks meta) ->
                 AckGated.receivedBytes meta' = totalLength (AckGated.chunks meta'))
             /\ AckGated.status <$> AckGated.files r' = AckGated.status <$> AckGated.files r)
         /\ (AckGated.metaSize meta <= AckGated.receivedBytes meta' ->
             AckGated.chunks meta' = []
             /\ forall f, f ∈ AckGated.files r' -> AckGated.cardId f = id ->
                  AckGated.status f = AckGated.completed
                  /\ AckGated.url f =
                       Some {| blobBytes := concat (AckGated.chunks meta ++ [chunk]);
                               blobType :=
                                 MediaType.normalize (AckGated.metaType meta) |})).
Proof.
  split_and!.
  - intros i b. unfold StartChunkEnd.initReceiver.
    cbn [StartChunkEnd.incomingBuffer]. by rewrite lookup_empty.
  - apply countsBufferedBytes_step.
  - intros floorPercent r before Hbefore.
    destruct (StartChunkEndReceiver.handleStreamChunk_buffer floorPercent id chunk r
                before Hbefore)
      as (_ & _ & _ & b1 & Hb1 & _ & Hrec & _).
    exists b1. split_and!; [done|done|lia].
  - intros now r meta Hm.
    destruct (N.le_gt_cases (AckGated.metaSize meta)
                (AckGated.receivedBytes meta + byteLength chunk)) as [Hc|Hc].
    + destruct (AckGatedReceiver.chunk_reaching_size id chunk now r meta Hm Hc)
        as (r' & meta' & H1 & H2 & H3 & H4 & H5 & H6 & H7).
      exists r', meta'. split_and!; try done; try lia.
    + destruct (AckGatedReceiver.chunk_below_size id chunk now r meta Hm Hc)
        as (r' & meta' & H1 & H2 & H3 & H4 & H5 & H6 & H7 & H8 & _).
      exists r', meta'. split_and!; try done; try lia.
      intros _. split_and!; try done.
      intros Hinv. rewrite H3, H4, totalLength_snoc. lia.
Qed.


(** ** The finish message *)

Lemma upload_shape (c : N) (f : File) (id : string) u envs :
  let st := fst (StartChunkEnd.upload c f id u envs) in
  exists (k : nat) (fin : bool),
    StartChunkEnd.sentMessages (snd (StartChunkEnd.upload c f id u envs)) =
      StartChunkEnd.FileStart id (fname f) (fsize f) (ftype f)
      :: (StartChunkEnd.StreamChunk id <$> chunksFrom c (content f) 0 k)
      ++ (if fin then [StartChunkEnd.FileEnd id] else [])
    /\ StartChunkEnd.wfLoop c st
    /\ StartChunkEnd.file (StartChunkEnd.loop st) = f
    /\ (fin = true ->
        fsize f <= StartChunkEnd.offset (StartChunkEnd.loop st)
        /\ StartChunkEnd.pending st = StartChunkEnd.PStopped
        /\ StartChunkEnd.uploadProgress (StartChunkEnd.ui st) = Pct 100)
    /\ (fin = false -> StartChunkEnd.pending st = StartChunkEnd.PStopped ->
        StartChunkEnd.offset (StartChunkEnd.loop st) < fsize f).
Proof.
  unfold StartChunkEnd.upload, StartChunkEnd.sendFile.
  match goal with |- context [StartChunkEnd.runLoop c envs ?s] => set (st0 := s) end.
  destruct (StartChunkEndFacts.runLoop_chunks_sce c envs st0 I)
    as (k & fin & H1 & H2 & H3 & H4 & H5 & H6 & H7 & H8).
  destruct (StartChunkEnd.runLoop c envs st0) as [st effs] eqn:Hrun.
  cbn [fst snd] in *. exists k, fin.
  rewrite StartChunkEndFacts.sentMessages_app_sce, H4.
  subst st0. cbn in *. split_and!; try done.
  intros Hf. by apply H8.
Qed.

Lemma upload_app (c : N) (f : File) (id : string) u envs1 envs2 :
  StartChunkEnd.upload c f id u (envs1 ++ envs2) =
    (fst (StartChunkEnd.runLoop c envs2 (fst (StartChunkEnd.upload c f id u envs1))),
     snd (StartChunkEnd.upload c f id u envs1)
     ++ snd (StartChunkEnd.runLoop c envs2 (fst (StartChunkEnd.upload c f id u envs1)))).
Proof.
  unfold StartChunkEnd.upload, StartChunkEnd.sendFile.
  rewrite StartChunkEndFacts.runLoop_app_sce.
  match goal with |- context [StartChunkEnd.runLoop c envs1 ?s] =>
    destruct (StartChunkEnd.runLoop c envs1 s) as [st1 effs1] end.
  cbn [fst snd].
  destruct (StartChunkEnd.runLoop c envs2 st1) as [st2 effs2].
  cbn [fst snd]. by rewrite app_assoc.
Qed.

Lemma upload_finish_iff (c : N) (f : File) (id : string) u envs :
  let st := fst (StartChunkEnd.upload c f id u envs) in
  StartChunkEnd.FileEnd id
    ∈ StartChunkEnd.sentMessages (snd (StartChunkEnd.upload c f id u envs))
  <-> StartChunkEnd.pending st = StartChunkEnd.PStopped
      /\ fsize f <= StartChunkEnd.offset (StartChunkEnd.loop st).
Proof.
  cbv zeta.
  destruct (upload_shape c f id u envs) as (k & fin & Hs & _ & _ & Ht & Hf).
  rewrite Hs. destruct fin.
  - destruct (Ht eq_refl) as (Ho & Hp & _). split; [done|]. intros _.
    apply elem_of_cons. right. apply elem_of_app. right.
    by apply list_elem_of_singleton.
  - split.
    + rewrite app_nil_r. intros HE.
      apply elem_of_cons in HE as [HE|HE]; [discriminate|].
      apply list_elem_of_fmap in HE as (x & Hx & _). discriminate.
    + intros [Hp Ho]. specialize (Hf eq_refl Hp). lia.
Qed.

(** C6, as stated, fails in the ACK-gated iteration: the loop walks a
    one-byte file to its end on an open channel and turns to "done", and
    the one chunk is all it ever sent. *)
Lemma end_of_file_without_finish :
  let f := {| fname := "a.txt"; ftypeGiven := "text/plain"; content := [Byte.x61] |} in
  let u := {| AckGated.sendingState := AckGated.waiting_ack;
              AckGated.uploadProgress := Pct 0;
              AckGated.currentFileName := "a.txt" |} in
  let flow := {| bufferedAmount := 0; isOpen := true |} in
  let run := AckGated.stream AckGated.CHUNK_SIZE f "t1" u [flow; flow; flow] in
  snd run = [AckGated.ReadAsArrayBuffer [Byte.x61];
             AckGated.Send (AckGated.CHUNK "t1" [Byte.x61]);
             AckGated.SetTimeout AckGated.CbSendLoop 0;
             AckGated.SetTimeout AckGated.CbResetUI 3000]
  /\ AckGated.sentMessages (snd run) = [AckGated.CHUNK "t1" [Byte.x61]]
  /\ AckGated.sendingState (AckGated.ui (fst run)) = AckGated.done
  /\ AckGated.pending (fst run) = AckGated.PStopped.
Proof. vm_compute. repeat split; reflexivity. Qed.

(** C6, amended.  In the start/chunk/end iteration the sender emits the
    finish message for its file id if and only if its loop is entered at
    the end of the file, where it also shows 100% progress; the loop does
    not look at the channel's open flag at that point.  If the channel is
    reported not open when a chunk has been read, the loop stops there:
    whatever happens later it sends nothing more and never emits the
    finish message.  In the ACK-gated iteration there is no finish
    message: every message of the loop is a chunk, the end of the file
    only turns the sender to "done", and a channel reported not open
    stops the loop in the same way. *)
Theorem finish_message (c : N) (f : File) (id : string) :
  (forall u envs,
      let st := fst (StartChunkEnd.upload c f id u envs) in
      let sent := StartChunkEnd.sentMessages (snd (StartChunkEnd.upload c f id u envs)) in
      (StartChunkEnd.FileEnd id ∈ sent
       <-> StartChunkEnd.pending st = StartChunkEnd.PStopped
           /\ fsize f <= StartChunkEnd.offset (StartChunkEnd.loop st))
      /\ (StartChunkEnd.FileEnd id ∈ sent ->
          StartChunkEnd.uploadProgress (StartChunkEnd.ui st) = Pct 100))
  /\ (forall u envs1 e envs2 part,
      StartChunkEnd.pending (fst (StartChunkEnd.upload c f id u envs1))
        = StartChunkEnd.PReading part ->
      isOpen e = false ->
      snd (StartChunkEnd.upload c f id u (envs1 ++ e :: envs2))
        = snd (StartChunkEnd.upload c f id u envs1)
      /\ StartChunkEnd.FileEnd id
           ∉ StartChunkEnd.sentMessages
               (snd (StartChunkEnd.upload c f id u (envs1 ++ e :: envs2))))
  /\ (forall u envs,
      (exists k : nat,
          AckGated.sentMessages (snd (AckGated.stream c f id u envs))
            = AckGated.CHUNK id <$> chunksFrom c (content f) 0 k)
      /\ (AckGated.reachedEOF (snd (AckGated.stream c f id u envs)) ->
          AckGated.sendingState (AckGated.ui (fst (AckGated.stream c f id u envs)))
            = AckGated.done))
  /\ (forall u envs1 e envs2 part,
      AckGated.pending (fst (AckGated.stream c f id u envs1)) = AckGated.PReading part ->
      isOpen e = false ->
      snd (AckGated.stream c f id u (envs1 ++ e :: envs2))
        = snd (AckGated.stream c f id u envs1)).
Proof.
  split_and!.
  - intros u envs. cbv zeta. split; [apply upload_finish_iff|].
    intros HE.
    destruct (upload_shape c f id u envs) as (k & fin & Hs & _ & _ & Ht & _).
    destruct fin; [by apply Ht|].
    rewrite Hs, app_nil_r in HE.
    apply elem_of_cons in HE as [HE|HE]; [discriminate|].
    apply list_elem_of_fmap in HE as (x & Hx & _). discriminate.
  - intros u envs1 e envs2 part Hp Hopen.
    assert (Hsame : StartChunkEnd.upload c f id u (envs1 ++ e :: envs2) =
                    (StartChunkEnd.mkLoopState
                       (StartChunkEnd.loop (fst (StartChunkEnd.upload c f id u envs1)))
                       (StartChunkEnd.addSenderLog StartChunkEnd.LogConnectionLost
                          (StartChunkEnd.ui (fst (StartChunkEnd.upload c f id u envs1))))
                       StartChunkEnd.PStopped,
                     snd (StartChunkEnd.upload c f id u envs1))).
    { rewrite upload_app, StartChunkEndFacts.runLoop_cons_sce.
      destruct (StartChunkEndFacts.loopStep_cases_sce c e
                  (fst (StartChunkEnd.upload c f id u envs1)));
        try congruence.
      rewrite StartChunkEndFacts.runLoop_stopped_sce by done.
      cbn [fst snd]. by rewrite !app_nil_r. }
    split; [by rewrite Hsame|].
    intros HE. apply upload_finish_iff in HE as [_ Ho].
    rewrite Hsame in Ho. cbn [fst StartChunkEnd.loop] in Ho.
    destruct (upload_shape c f id u envs1) as (_ & _ & _ & Hwf & Hfile & _).
    unfold StartChunkEnd.wfLoop in Hwf. rewrite Hp, Hfile in Hwf. lia.
  - intros u envs. unfold AckGated.stream.
    destruct (AckGatedFacts.runLoop_chunks c envs (AckGated.startLoop f id u) I)
      as (k & _ & _ & _ & H4 & _ & _ & H7).
    split; [by exists k|]. intros HE. by apply H7.
  - intros u envs1 e envs2 part Hp Hopen. unfold AckGated.stream in *.
    rewrite AckGatedFacts.runLoop_app, AckGatedFacts.runLoop_cons.
    destruct (AckGatedFacts.loopStep_cases c e
                (fst (AckGated.runLoop c envs1 (AckGated.startLoop f id u))));
      try congruence.
    rewrite AckGatedFacts.runLoop_stopped by done.
    cbn [fst snd]. by rewrite !app_nil_r.
Qed.

(** ** The handshake *)

Module AckGatedSystem.
Import AckGated.

Lemma runSystem_cons ev evs sys :
  runSystem (ev :: evs) sys =
    (fst (runSystem evs (fst (systemStep ev sys))),
     snd (systemStep ev sys) ++ snd (runSystem evs (fst (systemStep ev sys)))).
Proof.
  cbn [runSystem]. destruct (systemStep ev sys) as [sys1 obs1].
  cbn [fst snd]. by destruct (runSystem evs sys1).
Qed.

Lemma initSystem_unacknowledged : unacknowledged initSystem.
Proof. split; cbn; auto. Qed.

(** No event takes the joined peers out of the unacknowledged state, and
    no event makes a peer answer or stream there. *)
Lemma systemStep_unacknowledged ev sys :
  unacknowledged sys ->
  unacknowledged (fst (systemStep ev sys))
  /\ Forall (fun o => ~ isProgress o) (snd (systemStep ev sys)).
Proof.
  intros [Ht Hs He Hc Hts Htr].
  destruct ev as [| | |picked rnd|i e|now|e]; cbn [systemStep].
  - split; [split; cbn; rewrite ?app_nil_r; auto|constructor].
  - split; [split; cbn; rewrite ?app_nil_r; auto|constructor].
  - split; [split; cbn; auto|constructor].
  - unfold viaSender. cbn [senderStep]. unfold initiateSend.
    destruct picked as [f|]; [destruct (senderConn (sender sys))|]; cbn.
    + split; [split; cbn; auto|].
      * rewrite Forall_app. split; [done|]. repeat constructor. by exists f, rnd.
      * repeat constructor. cbn. tauto.
    + split; [split; cbn; rewrite ?app_nil_r; auto|constructor].
    + split; [split; cbn; rewrite ?app_nil_r; auto|constructor].
  - unfold viaSender. cbn [senderStep]. unfold fire. rewrite Ht, lookup_nil. cbn.
    split; [split; cbn; rewrite ?app_nil_r; auto|constructor].
  - destruct (toReceiver sys) as [|m rest] eqn:Hq;
      [cbn; split; [split; auto; by rewrite Hq|constructor]|].
    apply Forall_cons in Htr as [(f & id & ->) Hrest].
    rewrite AckGatedReceiver.file_announce_ignored. cbn.
    split; [split; cbn; rewrite ?app_nil_r; auto|].
    repeat constructor. cbn. tauto.
  - rewrite Hts. cbn. split; [by split|constructor].
Qed.

Lemma runSystem_unacknowledged evs sys :
  unacknowledged sys ->
  unacknowledged (fst (runSystem evs sys))
  /\ Forall (fun o => ~ isProgress o) (snd (runSystem evs sys)).
Proof.
  revert sys. induction evs as [|ev evs IH]; intros sys Hun.
  - cbn. by split; [|constructor].
  - rewrite runSystem_cons. cbn [fst snd].
    destruct (systemStep_unacknowledged ev sys Hun) as [H1 H2].
    destruct (IH _ H1) as [H3 H4]. split; [done|].
    rewrite Forall_app. by split.
Qed.

End AckGatedSystem.

(** C5.  The receiver answers a header with the ACK of its id, and the
    sender starts to stream when an ACK arrives.  But the message that
    [initiateSend] sends is not a header: its [type] is the type of the
    file.  On the sample file the receiver gets the announce and answers
    nothing, and the sender is left in [waiting_ack].  From the initial
    state, whatever the events are, the receiver sends no message at all,
    the sender receives none and sends no chunk, and the sender shows
    [idle] or [waiting_ack]. *)
Theorem announce_is_never_acknowledged :
  (forall id name size now r,
      snd <$> AckGated.handleIncomingData (AckGated.HEADER id name size) now r
      = Some [AckGated.ACK id])
  /\ (forall f rnd s,
      AckGated.senderConn s = true ->
      snd (AckGated.initiateSend (Some f) rnd s)
      = [AckGated.Announce (ftype f) rnd (fname f) (fsize f)]
      /\ AckGated.messageType (AckGated.Announce (ftype f) rnd (fname f) (fsize f))
         <> "HEADER")
  /\ (let '(sys, obs) :=
        AckGated.runSystem
          [AckGated.SysConnected; AckGated.SysFileChosen (Some sampleFile) "t1";
           AckGated.SysDeliverToReceiver 5] AckGated.initSystem in
      obs = [AckGated.SenderSent (AckGated.Announce "text/plain" "t1" "a.txt" 5);
             AckGated.ReceiverGot (AckGated.Announce "text/plain" "t1" "a.txt" 5)]
      /\ AckGated.sendingState (AckGated.senderUI (AckGated.sender sys))
         = AckGated.waiting_ack
      /\ AckGated.toSender sys = []
      /\ AckGated.toReceiver sys = []
      /\ AckGated.incomingFilesRef (AckGated.receiver sys) = ∅
      /\ AckGated.files (AckGated.receiver sys) = [])
  /\ (forall evs,
      let run := AckGated.runSystem evs AckGated.initSystem in
      AckGated.unacknowledged (fst run)
      /\ (forall m, AckGated.ReceiverSent m ∉ snd run)
      /\ (forall m, AckGated.SenderGot m ∉ snd run)
      /\ (forall id chunk, AckGated.SenderSent (AckGated.CHUNK id chunk) ∉ snd run)).
Proof.
  split_and!.
  - reflexivity.
  - intros f rnd s Hconn. unfold AckGated.initiateSend. rewrite Hconn. cbn.
    split; [done|]. apply ftype_not_HEADER.
  - vm_compute. by repeat split.
  - intros evs. cbv zeta.
    destruct (AckGatedSystem.runSystem_unacknowledged evs AckGated.initSystem
                AckGatedSystem.initSystem_unacknowledged) as [H1 H2].
    rewrite Forall_forall in H2.
    split_and!; [done|..]; intros; intros Hin; by apply (H2 _ Hin).
Qed.

(** ** From the sender's loop to the receiver's artifact *)

Lemma receive_chunks_sce floorPercent id (l : list (list byte)) :
  forall (msgs : list (StartChunkEnd.Message * N)) r b,
    fst <$> msgs = StartChunkEnd.StreamChunk id <$> l ->
    StartChunkEnd.incomingBuffer r !! id = Some b ->
    exists b',
      StartChunkEnd.incomingBuffer (StartChunkEnd.receiveAll floorPercent msgs r) !! id
        = Some b'
      /\ StartChunkEnd.chunks b' = StartChunkEnd.chunks b ++ l
      /\ StartChunkEnd.bufName b' = StartChunkEnd.bufName b
      /\ StartChunkEnd.bufType b' = StartChunkEnd.bufType b
      /\ StartChunkEnd.received b' = StartChunkEnd.received b + totalLength l
      /\ StartChunkEnd.files (StartChunkEnd.receiveAll floorPercent msgs r)
         = StartChunkEnd.files r.
Proof.
  induction l as [|x l IH]; intros msgs r b Hmsgs Hb.
  - apply fmap_nil_inv in Hmsgs as ->. simpl. exists b.
    rewrite app_nil_r, N.add_0_r. done.
  - destruct msgs as [|[m t] msgs]; [discriminate|].
    cbn [fmap list_fmap fst] in Hmsgs. injection Hmsgs as -> Hmsgs.
    cbn [StartChunkEnd.receiveAll StartChunkEnd.receiverOnData].
    destruct (StartChunkEndReceiver.handleStreamChunk_buffer floorPercent id x r b
                (or_introl Hb))
      as (Hfiles & _ & _ & b1 & Hb1 & Hch & Hrec & _ & Hname & Htype).
    destruct (IH msgs _ b1 Hmsgs Hb1) as (b' & H1 & H2 & H3 & H4 & H5 & H6).
    exists b'. split_and!; try done.
    + by rewrite H2, Hch, <- app_assoc.
    + congruence.
    + congruence.
    + rewrite H5, Hrec. unfold totalLength. simpl. lia.
    + congruence.
Qed.

(** Start/chunk/end: what the receiver makes of the messages of an upload
    that reached its end signal. *)
Lemma upload_received (c : N) (f : File) (id : string) u envs
    floorPercent (msgs : list (StartChunkEnd.Message * N)) r :
  0 < c ->
  content f <> [] ->
  StartChunkEnd.FileEnd id
    ∈ StartChunkEnd.sentMessages (snd (StartChunkEnd.upload c f id u envs)) ->
  fst <$> msgs = StartChunkEnd.sentMessages (snd (StartChunkEnd.upload c f id u envs)) ->
  exists entry,
    StartChunkEnd.files (StartChunkEnd.receiveAll floorPercent msgs r)
      = entry :: StartChunkEnd.files r
    /\ StartChunkEnd.entryId entry = id
    /\ StartChunkEnd.entryName entry = fname f
    /\ StartChunkEnd.entrySize entry = fsize f
    /\ StartChunkEnd.url entry = {| blobBytes := content f; blobType := ftype f |}.
Proof.
  intros Hc Hne HE Hmsgs.
  destruct (StartChunkEndFacts.upload_complete c f id u envs HE) as (k & Hs & Hcov & Hlast).
  rewrite Hs in Hmsgs.
  destruct msgs as [|[m0 t0] msgs]; [discriminate|].
  cbn [fmap list_fmap fst] in Hmsgs. injection Hmsgs as -> Hmsgs.
  apply fmap_app_inv in Hmsgs as (mid & fin & Hmid & Hfin & ->).
  destruct fin as [|[m1 t1] [|? ?]]; try discriminate.
  cbn [fmap list_fmap fst] in Hfin. injection Hfin as <-.
  cbn [StartChunkEnd.receiveAll StartChunkEnd.receiverOnData].
  match goal with |- context [StartChunkEnd.receiveAll _ _ ?s] => set (r0 := s) end.
  assert (Hb0 : StartChunkEnd.incomingBuffer r0 !! id =
                Some {| StartChunkEnd.bufName := fname f; StartChunkEnd.bufSize := fsize f;
                        StartChunkEnd.bufType := ftype f; StartChunkEnd.received := 0;
                        StartChunkEnd.chunks := []; StartChunkEnd.lastLog := 0;
                        StartChunkEnd.startTime := Some t0 |}).
  { subst r0. cbn. apply lookup_insert_eq. }
  assert (Hrun : forall r1 ms, StartChunkEnd.receiveAll floorPercent (ms ++ [(StartChunkEnd.FileEnd id, t1)]) r1
                 = StartChunkEnd.receiverOnData floorPercent (StartChunkEnd.FileEnd id) t1
                     (StartChunkEnd.receiveAll floorPercent ms r1)).
  { intros r1 ms. revert r1. induction ms as [|[m t] ms IHms]; intros r1; [done|].
    simpl. apply IHms. }
  rewrite Hrun.
  destruct (receive_chunks_sce floorPercent id _ mid r0 _ (eq_sym Hmid) Hb0)
    as (b' & H1 & H2 & H3 & H4 & H5 & H6).
  cbn [StartChunkEnd.chunks StartChunkEnd.bufName StartChunkEnd.bufType
       StartChunkEnd.received app] in *.
  cbn [StartChunkEnd.receiverOnData].
  assert (Hk : k <> O).
  { intros ->. simpl in Hcov. unfold fsize, byteLength in Hcov.
    destruct (content f); [done|simpl in Hcov; lia]. }
  assert (Hchunks : StartChunkEnd.chunks b' <> []).
  { rewrite H2. destruct k; [done|discriminate]. }
  rewrite (StartChunkEndReceiver.finishFile_finalized id t1
             (StartChunkEnd.addLog (StartChunkEnd.LogFileEnd id)
                (StartChunkEnd.receiveAll floorPercent mid r0)) b' H1 Hchunks).
  eexists. split; [cbn; rewrite H6; subst r0; reflexivity|].
  cbn. split_and!; try done.
  - rewrite H5, totalLength_concat, chunksFrom_concat, slice_all; [done|].
    unfold fsize in Hcov. lia.
  - rewrite H2, H4, newBlob_ftype. f_equal.
    by apply complete_split_concat.
Qed.





(** X2.  Start/chunk/end, end to end: when a non-empty file has been uploaded
    to its end signal and the receiver is given the messages in the order
    sent, it adds one file whose blob holds the file's bytes. *)
Theorem end_to_end_start_chunk_end (c : N) (f : File) (id : string) u envs
    floorPercent (msgs : list (StartChunkEnd.Message * N)) r :
  0 < c ->
  content f <> [] ->
  StartChunkEnd.FileEnd id
    ∈ StartChunkEnd.sentMessages (snd (StartChunkEnd.upload c f id u envs)) ->
  fst <$> msgs = StartChunkEnd.sentMessages (snd (StartChunkEnd.upload c f id u envs)) ->
  exists entry,
    StartChunkEnd.files (StartChunkEnd.receiveAll floorPercent msgs r)
      = entry :: StartChunkEnd.files r
    /\ StartChunkEnd.entryId entry = id
    /\ StartChunkEnd.entryName entry = fname f
    /\ StartChunkEnd.entrySize entry = fsize f
    /\ StartChunkEnd.url entry = {| blobBytes := content f; blobType := ftype f |}.
Proof. apply upload_received. Qed.

(** ** The theorems at sample inputs *)


(** The chunk count of a 5-byte file cut into chunks of 4. *)
Lemma chunk_lengths_witness :
  0 < 4
  /\ N.of_nat (length (AckGated.streamedChunks 4 sampleFile "t1" AckGated.sampleUI
                         (replicate 5 flowingEnv)))
     = (fsize sampleFile + 4 - 1) / 4.
Proof.
  split; [reflexivity|].
  apply (proj1 (proj2 (proj2 (chunk_lengths 4 sampleFile "t1" eq_refl)))).
  vm_compute. repeat constructor.
Defined.

(** Two readings one byte above the mark, at the start of a stream. *)
Lemma backpressure_gate_witness :
  AckGated.pending (AckGated.startLoop sampleFile "t1" AckGated.sampleUI) = AckGated.PTimer
  /\ Forall (fun e => AckGated.HIGH_WATER_MARK < bufferedAmount e) [blockedEnv; blockedEnv]
  /\ AckGated.sentMessages
       (snd (AckGated.runLoop 4 [blockedEnv; blockedEnv]
               (AckGated.startLoop sampleFile "t1" AckGated.sampleUI))) = [].
Proof.
  assert (Hbl : Forall (fun e => AckGated.HIGH_WATER_MARK < bufferedAmount e)
                  [blockedEnv; blockedEnv]) by (repeat constructor).
  split; [reflexivity|]. split; [exact Hbl|].
  exact (proj1 (proj2 (proj2 (backpressure_gate 4 [blockedEnv; blockedEnv]
                                (AckGated.startLoop sampleFile "t1" AckGated.sampleUI)
                                eq_refl Hbl)))).
Defined.

(** The empty file. *)
Lemma zero_byte_transfer_witness :
  content emptyFile = []
  /\ forall c u envs,
       AckGated.sentMessages (snd (AckGated.stream c emptyFile "t0" u envs)) = [].
Proof.
  split; [reflexivity|].
  exact (proj1 (zero_byte_transfer emptyFile "t0" eq_refl)).
Defined.

(** Both loops at chunk size 4 on files of 0, 1, c-1, c, c+1 and 10c+7
    bytes. *)
Example roundtrip_sizes :
  Forall (fun n : nat =>
            let f := patternFile n in
            let envs := replicate (2 * n + 1) flowingEnv in
            concat (AckGated.streamedChunks 4 f "t1" AckGated.sampleUI envs) = content f
            /\ concat (StartChunkEnd.uploadedChunks 4 f "t1" StartChunkEnd.sampleUI envs)
               = content f)
         [0; 1; 3; 4; 5; 47]%nat.
Proof. repeat constructor; vm_compute; reflexivity. Qed.

(** A 40000-byte file at the chunk size of the source: three chunks of
    16384, 16384 and 7232 bytes, and a receiver that ends with one
    completed card whose blob has 40000 bytes. *)
Example transfer_40000 :
  let f := patternFile (N.to_nat 40000) in
  let sent := AckGated.sentMessages
                (snd (AckGated.stream AckGated.CHUNK_SIZE f "t1" AckGated.sampleUI
                        (replicate 7 flowingEnv))) in
  byteLength <$> AckGated.chunkPayloads sent = [16384; 16384; 7232]
  /\ match AckGated.receiveAll
             ((AckGated.HEADER "t1" "a.txt" 40000, 0)
              :: ((fun m => (m, 1)) <$> sent)) AckGated.initReceiver with
     | Some (r, out) =>
         out = [AckGated.ACK "t1"]
         /\ (AckGated.status <$> AckGated.files r) = [AckGated.completed]
         /\ (fmap (M := option) (fun b => byteLength (blobBytes b))
               <$> (AckGated.url <$> AckGated.files r)) = [Some 40000]
     | None => False
     end.
Proof. vm_compute. repeat split; reflexivity. Qed.


(** ** Room names *)

Module RoomNameFacts.
Import Stdlib.Strings.Ascii.
Import RoomName.

Abbreviation notWhite := (fun a : ascii => negb (isWhiteSpace a)).

Lemma isWhiteSpace_lowerChar a : isWhiteSpace (lowerChar a) = isWhiteSpace a.
Proof. destruct a as [[] [] [] [] [] [] [] []]; reflexivity. Qed.

Lemma lowerChar_idem a : lowerChar (lowerChar a) = lowerChar a.
Proof. destruct a as [[] [] [] [] [] [] [] []]; reflexivity. Qed.

Lemma toLowerCase_idem s : toLowerCase (toLowerCase s) = toLowerCase s.
Proof. induction s as [|a s IH]; [done|]. simpl. by rewrite lowerChar_idem, IH. Qed.

Lemma toLowerCase_empty s : toLowerCase s = EmptyString <-> s = EmptyString.
Proof. destruct s; simpl; split; congruence. Qed.

Lemma toLowerCase_trimStart s : toLowerCase (trimStart s) = trimStart (toLowerCase s).
Proof.
  induction s as [|a s IH]; [done|]. simpl. rewrite isWhiteSpace_lowerChar.
  by destruct (isWhiteSpace a).
Qed.

Lemma toLowerCase_trimEnd s : toLowerCase (trimEnd s) = trimEnd (toLowerCase s).
Proof.
  induction s as [|a s IH]; [done|]. simpl. rewrite <- IH, isWhiteSpace_lowerChar.
  destruct (trimEnd s); simpl; [|done]. by destruct (isWhiteSpace a).
Qed.

Lemma toLowerCase_dashRuns b s :
  toLowerCase (dashRuns b s) = dashRuns b (toLowerCase s).
Proof.
  revert b. induction s as [|a s IH]; intros b; [done|].
  simpl. rewrite isWhiteSpace_lowerChar.
  destruct (isWhiteSpace a); [destruct b|]; simpl; by rewrite IH.
Qed.

Lemma hostId_senderId name : hostId name = senderId name.
Proof.
  unfold hostId, senderId, replaceWhiteSpace, trim.
  by rewrite toLowerCase_dashRuns, toLowerCase_trimEnd, toLowerCase_trimStart.
Qed.

Lemma dashRuns_notWhite b s : allChars notWhite (dashRuns b s) = true.
Proof.
  revert b. induction s as [|a s IH]; intros b; [done|]. simpl.
  destruct (isWhiteSpace a) eqn:Ha; [destruct b|]; simpl; rewrite ?Ha, ?IH; done.
Qed.

Lemma toLowerCase_notWhite s :
  allChars notWhite s = true -> allChars notWhite (toLowerCase s) = true.
Proof.
  induction s as [|a s IH]; [done|]. simpl. rewrite isWhiteSpace_lowerChar.
  intros [Ha Hs]%andb_prop. by rewrite Ha, IH.
Qed.

Lemma toLowerCase_lowered s : allChars isLowered (toLowerCase s) = true.
Proof.
  induction s as [|a s IH]; [done|]. simpl. rewrite IH.
  unfold isLowered. by rewrite lowerChar_idem, Ascii.eqb_refl.
Qed.

Lemma notWhite_fixed s :
  allChars notWhite s = true ->
  trimStart s = s /\ trimEnd s = s /\ forall b, dashRuns b s = s.
Proof.
  induction s as [|a s IH]; [done|]. simpl.
  intros [Ha Hs]%andb_prop. apply negb_true_iff in Ha. rewrite Ha.
  destruct (IH Hs) as (_ & H2 & H3). split_and!; [done| |].
  - rewrite H2. by destruct s.
  - intros b. by rewrite H3.
Qed.

Lemma trimStart_empty s :
  trimStart s = EmptyString <-> allChars isWhiteSpace s = true.
Proof.
  induction s as [|a s IH]; [done|]. simpl.
  destruct (isWhiteSpace a); simpl; [done|]. split; discriminate.
Qed.

Lemma trimEnd_empty s :
  trimEnd s = EmptyString <-> allChars isWhiteSpace s = true.
Proof.
  induction s as [|a s IH]; [done|]. simpl.
  destruct (trimEnd s) eqn:Ht.
  - destruct (isWhiteSpace a); simpl.
    + split; [intros _; by apply IH|done].
    + split; discriminate.
  - split; [discriminate|].
    intros [_ Hs]%andb_prop. apply IH in Hs. discriminate.
Qed.

Lemma trimStart_white s :
  allChars isWhiteSpace (trimStart s) = true -> allChars isWhiteSpace s = true.
Proof.
  induction s as [|a s IH]; [done|]. simpl.
  destruct (isWhiteSpace a) eqn:Ha; simpl; [done|]. by rewrite Ha.
Qed.

Lemma dashRuns_empty s : dashRuns false s = EmptyString <-> s = EmptyString.
Proof. destruct s as [|a s]; [done|]. simpl. by destruct (isWhiteSpace a). Qed.

Lemma hostId_empty name :
  hostId name = EmptyString <-> allChars isWhiteSpace name = true.
Proof.
  unfold hostId, replaceWhiteSpace, trim.
  rewrite toLowerCase_empty, dashRuns_empty, trimEnd_empty. split.
  - apply trimStart_white.
  - intros H. apply trimStart_empty in H. by rewrite H.
Qed.

End RoomNameFacts.

(** X3.  A host that starts with a non-empty name and a sender that
    types the very same name meet: the id the sender connects to is the
    id the host asked to be registered under, although the two sides
    apply lower-casing and dash replacement in opposite orders. *)
Theorem sender_reaches_host (name : string) (h : AckGatedHost.Host) :
  AckGatedHost.customId h = name ->
  name <> EmptyString ->
  exists p,
    AckGatedHost.peerEngine (AckGatedHost.startHosting h) = Some p
    /\ AckGatedHost.destroyed p = false
    /\ RoomName.connectTarget name = Some (AckGatedHost.requestedId p).
Proof.
  intros Hname Hne. unfold AckGatedHost.startHosting, RoomName.connectTarget.
  rewrite Hname. rewrite !decide_False by done.
  eexists. split_and!; [reflexivity|reflexivity|].
  cbn. by rewrite RoomNameFacts.hostId_senderId.
Qed.

(** X4.  The id made from a room name is in canonical form: it holds no
    white space, no upper-case letter, and cleaning it again gives it
    back unchanged. *)
Theorem host_id_canonical (name : string) :
  RoomName.allChars (fun a => negb (RoomName.isWhiteSpace a)) (RoomName.hostId name) = true
  /\ RoomName.allChars RoomName.isLowered (RoomName.hostId name) = true
  /\ RoomName.hostId (RoomName.hostId name) = RoomName.hostId name.
Proof.
  assert (Hw : RoomName.allChars (fun a => negb (RoomName.isWhiteSpace a))
                 (RoomName.hostId name) = true).
  { apply RoomNameFacts.toLowerCase_notWhite, RoomNameFacts.dashRuns_notWhite. }
  split_and!; [done|apply RoomNameFacts.toLowerCase_lowered|].
  destruct (RoomNameFacts.notWhite_fixed _ Hw) as (H1 & H2 & H3).
  unfold RoomName.hostId at 1. unfold RoomName.trim, RoomName.replaceWhiteSpace.
  rewrite H1, H2, H3. unfold RoomName.hostId.
  apply RoomNameFacts.toLowerCase_idem.
Qed.

(** X5.  A name cleans to the empty id exactly when all of it is white
    space.  The guard of [startHosting] tests the name as typed, so a
    non-empty name of white space only passes it: the host shows no
    error and asks for a peer with the empty id. *)
Theorem blank_name_registers_empty_id (h : AckGatedHost.Host) :
  AckGatedHost.customId h <> EmptyString ->
  RoomName.allChars RoomName.isWhiteSpace (AckGatedHost.customId h) = true ->
  AckGatedHost.peerEngine (AckGatedHost.startHosting h)
    = Some {| AckGatedHost.requestedId := EmptyString; AckGatedHost.destroyed := false |}
  /\ AckGatedHost.hostError (AckGatedHost.startHosting h) = EmptyString
  /\ (forall name,
        RoomName.hostId name = EmptyString
        <-> RoomName.allChars RoomName.isWhiteSpace name = true).
Proof.
  intros Hne Hblank. unfold AckGatedHost.startHosting.
  rewrite decide_False by done. cbn.
  apply RoomNameFacts.hostId_empty in Hblank. rewrite Hblank.
  split_and!; try done. apply RoomNameFacts.hostId_empty.
Qed.

(** ** More on the receivers *)

Module ReceiverFrames.

Lemma setProgress_cardsOf i id p (l : list AckGated.FileCard) :
  i <> id ->
  filter (fun f => AckGated.cardId f = id) (AckGated.setProgress i p <$> l)
  = filter (fun f => AckGated.cardId f = id) l.
Proof.
  intros Hne. induction l as [|f l IH]; [done|].
  cbn [fmap list_fmap]. rewrite !filter_cons, IH.
  unfold AckGated.setProgress.
  destruct (decide (AckGated.cardId f = i)) as [Hi|Hi]; [|done].
  cbn. rewrite !decide_False by congruence. done.
Qed.

Lemma setCompleted_cardsOf i id b (l : list AckGated.FileCard) :
  i <> id ->
  filter (fun f => AckGated.cardId f = id) (AckGated.setCompleted i b <$> l)
  = filter (fun f => AckGated.cardId f = id) l.
Proof.
  intros Hne. induction l as [|f l IH]; [done|].
  cbn [fmap list_fmap]. rewrite !filter_cons, IH.
  unfold AckGated.setCompleted.
  destruct (decide (AckGated.cardId f = i)) as [Hi|Hi]; [|done].
  cbn. rewrite !decide_False by congruence. done.
Qed.

(** A read depends on what is kept under the id and on the prototype. *)
Lemma jsGet_frame {B : Type} (ft : B -> string -> option bool)
    (o o' : gmap string B) id :
  o' !! id = o !! id -> o' !! "__proto__" = o !! "__proto__" ->
  jsGet ft o' id = jsGet ft o id.
Proof. unfold jsGet. by intros -> ->. Qed.

Lemma ackGated_chunk_frame i chunk now r r' out id :
  AckGated.handleChunk i chunk now r = Some (r', out) ->
  i <> id ->
  AckGated.incomingFilesRef r' !! id = AckGated.incomingFilesRef r !! id
  /\ AckGatedHost.cardsOf id r' = AckGatedHost.cardsOf id r.
Proof.
  unfold AckGatedHost.cardsOf, AckGated.handleChunk. intros H Hne.
  destruct (AckGated.entryOf r i) as [meta| |] eqn:Hm;
    [|discriminate|by injection H as <- <-].
  destruct (AckGated.metaSize meta <=? _).
  - unfold AckGated.finalizeFile, AckGated.entryOf in H.
    cbn [AckGated.incomingFilesRef AckGated.files AckGated.receiverConn] in H.
    rewrite jsGet_insert in H. injection H as <- <-.
    cbn [AckGated.incomingFilesRef AckGated.files].
    rewrite !lookup_insert_ne by done. split; [done|].
    rewrite setCompleted_cardsOf by done.
    destruct (_ || _); [by apply setProgress_cardsOf|done].
  - injection H as <- <-. cbn [AckGated.incomingFilesRef AckGated.files].
    rewrite lookup_insert_ne by done. split; [done|].
    destruct (_ || _); [by apply setProgress_cardsOf|done].
Qed.

Lemma ackGated_frame data now r r' out id :
  AckGated.handleIncomingData data now r = Some (r', out) ->
  AckGated.messageId data <> id ->
  AckGated.incomingFilesRef r' !! id = AckGated.incomingFilesRef r !! id
  /\ AckGatedHost.cardsOf id r' = AckGatedHost.cardsOf id r.
Proof.
  destruct data as [type i name size|i|i chunk]; cbn [AckGated.messageId];
    intros H Hne.
  - cbn in H. repeat case_bool_decide.
    + injection H as <- <-. unfold AckGatedHost.cardsOf. cbn.
      rewrite lookup_insert_ne by done.
      split; [done|]. by rewrite decide_False.
    + destruct (AckGated.entryOf r i); [discriminate|discriminate|].
      by injection H as <- <-.
    + by injection H as <- <-.
  - by injection H as <- <-.
  - by apply (ackGated_chunk_frame i chunk now r r' out).
Qed.

Lemma startChunkEnd_frame floorPercent data now r id :
  StartChunkEndHost.messageId data <> id ->
  let r' := StartChunkEnd.receiverOnData floorPercent data now r in
  StartChunkEnd.incomingBuffer r' !! id = StartChunkEnd.incomingBuffer r !! id
  /\ StartChunkEndHost.entriesOf id r' = StartChunkEndHost.entriesOf id r.
Proof.
  unfold StartChunkEndHost.entriesOf.
  destruct data as [i name size mime|i chunk|i]; cbn [StartChunkEndHost.messageId];
    intros Hne; cbv zeta; cbn [StartChunkEnd.receiverOnData].
  - cbn. by rewrite lookup_insert_ne.
  - destruct (StartChunkEndReceiver.bufferOf_cases r i) as [(b & Hb & _)|[[_ E]|[_ E]]].
    + destruct (StartChunkEndReceiver.handleStreamChunk_buffer floorPercent i chunk r b
                  (or_introl Hb)) as (Hfiles & _ & Hother & _).
      rewrite Hfiles. split; [|done]. apply Hother. congruence.
    + by rewrite StartChunkEndReceiver.handleStreamChunk_thrown.
    + destruct (StartChunkEndReceiver.handleStreamChunk_buffer floorPercent i chunk r _
                  (or_intror (conj E eq_refl))) as (Hfiles & _ & Hother & _).
      rewrite Hfiles. split; [|done]. apply Hother. congruence.
  - set (r1 := StartChunkEnd.addLog (StartChunkEnd.LogFileEnd i) r).
    destruct (StartChunkEndReceiver.bufferOf_cases r1 i) as [(b & Hb & _)|[[_ E]|[_ E]]].
    + destruct (decide (StartChunkEnd.chunks b = [])) as [Hc|Hc].
      * by rewrite StartChunkEndReceiver.finishFile_failed by eauto.
      * rewrite (StartChunkEndReceiver.finishFile_finalized _ _ _ _ Hb Hc). cbn.
        rewrite jsDelete_lookup_ne by done. split; [done|].
        by rewrite decide_False.
    + by rewrite StartChunkEndReceiver.finishFile_thrown.
    + by rewrite StartChunkEndReceiver.finishFile_failed by (by left).
Qed.

(** The entry that the completing chunk leaves behind. *)
Lemma chunk_reaching_size_entry id chunk now r meta :
  AckGated.incomingFilesRef r !! id = Some meta ->
  AckGated.metaSize meta <= AckGated.receivedBytes meta + byteLength chunk ->
  exists r' meta',
    AckGated.handleIncomingData (AckGated.CHUNK id chunk) now r = Some (r', [])
    /\ AckGated.incomingFilesRef r' !! id = Some meta'
    /\ AckGated.chunks meta' = []
    /\ AckGated.metaType meta' = AckGated.metaType meta
    /\ AckGated.metaSize meta' = AckGated.metaSize meta
    /\ AckGated.receivedBytes meta' = AckGated.receivedBytes meta + byteLength chunk.
Proof.
  intros H Hge. unfold AckGated.handleIncomingData, AckGated.handleChunk.
  rewrite (AckGatedReceiver.entryOf_own _ _ _ H).
  destruct (N.leb_spec (AckGated.metaSize meta)
              (AckGated.receivedBytes meta + byteLength chunk)); [|lia].
  unfold AckGated.finalizeFile, AckGated.entryOf.
  cbn [AckGated.incomingFilesRef AckGated.files AckGated.receiverConn].
  rewrite jsGet_insert.
  eexists _, _. split; [reflexivity|]. cbn [AckGated.incomingFilesRef].
  rewrite lookup_insert_eq. split; [reflexivity|]. done.
Qed.

End ReceiverFrames.

(** X6.  Messages about one transfer leave every other transfer alone.
    In both chunked iterations a message whose id differs from [id], and
    is not ["__proto__"], changes neither what the receiver reads under
    [id] nor the cards or file entries shown for [id]. *)
Theorem other_transfers_untouched (id : string) :
  (forall data now r r' out,
      AckGated.handleIncomingData data now r = Some (r', out) ->
      AckGated.messageId data <> id ->
      AckGated.messageId data <> "__proto__" ->
      AckGated.entryOf r' id = AckGated.entryOf r id
      /\ AckGatedHost.cardsOf id r' = AckGatedHost.cardsOf id r)
  /\ (forall floorPercent data now r,
      StartChunkEndHost.messageId data <> id ->
      StartChunkEndHost.messageId data <> "__proto__" ->
      let r' := StartChunkEnd.receiverOnData floorPercent data now r in
      StartChunkEnd.bufferOf r' id = StartChunkEnd.bufferOf r id
      /\ StartChunkEndHost.entriesOf id r' = StartChunkEndHost.entriesOf id r).
Proof.
  split.
  - intros data now r r' out H Hid Hp.
    destruct (ReceiverFrames.ackGated_frame data now r r' out id H Hid) as [H1 H2].
    destruct (ReceiverFrames.ackGated_frame data now r r' out "__proto__" H Hp) as [H3 _].
    split; [|done]. by apply ReceiverFrames.jsGet_frame.
  - intros floorPercent data now r Hid Hp. cbv zeta.
    destruct (ReceiverFrames.startChunkEnd_frame floorPercent data now r id Hid) as [H1 H2].
    destruct (ReceiverFrames.startChunkEnd_frame floorPercent data now r "__proto__" Hp)
      as [H3 _].
    split; [|done]. by apply ReceiverFrames.jsGet_frame.
Qed.

(** X7.  In the ACK-gated receiver a chunk that arrives after the
    transfer completed is not ignored: the byte count is still at or
    above the announced size, so the file is finalised again, and every
    card of that id now offers a blob made of the late chunk alone. *)
Theorem late_chunk_replaces_artifact (id : string) (chunk late : list byte)
    (now1 now2 : N) (r : AckGated.Receiver) (meta : AckGated.FileMeta) :
  AckGated.incomingFilesRef r !! id = Some meta ->
  AckGated.metaSize meta <= AckGated.receivedBytes meta + byteLength chunk ->
  exists r1 r2,
    AckGated.handleIncomingData (AckGated.CHUNK id chunk) now1 r = Some (r1, [])
    /\ AckGated.handleIncomingData (AckGated.CHUNK id late) now2 r1 = Some (r2, [])
    /\ AckGated.cardId <$> AckGated.files r2 = AckGated.cardId <$> AckGated.files r
    /\ forall card, card ∈ AckGated.files r2 -> AckGated.cardId card = id ->
         AckGated.status card = AckGated.completed
         /\ AckGated.url card
            = Some {| blobBytes := late;
                      blobType := MediaType.normalize (AckGated.metaType meta) |}.
Proof.
  intros Hm Hge.
  destruct (ReceiverFrames.chunk_reaching_size_entry id chunk now1 r meta Hm Hge)
    as (r1 & meta1 & H1 & Hm1 & Hch & Hty & Hsz & Hrec).
  destruct (AckGatedReceiver.chunk_reaching_size id chunk now1 r meta Hm Hge)
    as (r1' & _ & H1' & _ & _ & _ & _ & Hids & _).
  rewrite H1 in H1'. injection H1' as <-.
  destruct (AckGatedReceiver.chunk_reaching_size id late now2 r1 meta1 Hm1)
    as (r2 & meta2 & H2 & _ & _ & _ & _ & Hids2 & Hcards); [lia|].
  exists r1, r2. split_and!; try done; [congruence|].
  intros card Hc Hid. destruct (Hcards card Hc Hid) as [Hst Hurl].
  split; [done|]. rewrite Hurl, Hch, Hty. unfold newBlob. cbn.
  by rewrite app_nil_r.
Qed.

(** X8.  In the start/chunk/end receiver the end signal is consumed by
    the transfer it closes: it adds the file and removes the buffer.  For
    an id that the buffer object does not inherit (not ["__proto__"], not
    a property name of [Object.prototype], and with no entry announced
    under ["__proto__"]), a second end signal adds no second file and is
    answered with the "Buffer empty ... Transfer failed" line. *)
Theorem second_end_signal_fails (floorPercent : N -> N -> N) (fileId : string)
    (t1 t2 : N) (r : StartChunkEnd.Receiver) (b : StartChunkEnd.Buffer) :
  StartChunkEnd.incomingBuffer r !! fileId = Some b ->
  StartChunkEnd.chunks b <> [] ->
  fileId <> "__proto__" ->
  fileId ∉ objectPrototypeNames ->
  StartChunkEnd.incomingBuffer r !! "__proto__" = None ->
  let r1 := StartChunkEnd.receiverOnData floorPercent (StartChunkEnd.FileEnd fileId) t1 r in
  let r2 := StartChunkEnd.receiverOnData floorPercent (StartChunkEnd.FileEnd fileId) t2 r1 in
  StartChunkEnd.artifacts fileId r1
    = newBlob (StartChunkEnd.chunks b) (StartChunkEnd.bufType b)
      :: StartChunkEnd.artifacts fileId r
  /\ StartChunkEnd.files r2 = StartChunkEnd.files r1
  /\ StartChunkEnd.incomingBuffer r2 !! fileId = None
  /\ StartChunkEnd.logs r2
     = StartChunkEnd.LogBufferEmpty fileId :: StartChunkEnd.LogFileEnd fileId
       :: StartChunkEnd.logs r1.
Proof.
  intros Hb Hne Hp Hn Hproto. cbv zeta. cbn [StartChunkEnd.receiverOnData].
  rewrite (StartChunkEndReceiver.finishFile_finalized fileId t1
             (StartChunkEnd.addLog (StartChunkEnd.LogFileEnd fileId) r) b Hb Hne).
  assert (Hdel : forall k,
             jsDelete fileId
               (StartChunkEnd.incomingBuffer
                  (StartChunkEnd.addLog (StartChunkEnd.LogFileEnd fileId) r)) !! k
             = delete fileId (StartChunkEnd.incomingBuffer r) !! k).
  { intros k. unfold jsDelete. by rewrite bool_decide_eq_false_2. }
  rewrite StartChunkEndReceiver.finishFile_failed.
  2:{ left. apply jsGet_plain; cbn; rewrite ?Hdel; try done.
      - apply lookup_delete_eq.
      - by rewrite lookup_delete_ne. }
  unfold StartChunkEnd.artifacts. cbn. rewrite decide_True by done.
  split_and!; try done. rewrite Hdel. apply lookup_delete_eq.
Qed.

Module ProgressLog.
Import StartChunkEnd.
Import StartChunkEndHost.

Lemma addLog_steps msg r :
  loggedInSteps r ->
  (forall percent, msg = LogReceiving percent -> percent mod 20 = 0) ->
  loggedInSteps (addLog msg r).
Proof.
  intros [HA HB] Hmsg. split; [exact HA|].
  intros percent Hin. cbn in Hin.
  apply elem_of_cons in Hin as [Hin|Hin]; [by apply Hmsg|by apply HB].
Qed.

Lemma setBuffer_steps fileId b r :
  loggedInSteps r -> lastLog b mod 20 = 0 -> loggedInSteps (setBuffer fileId b r).
Proof.
  intros [HA HB] Hb. split; [|exact HB].
  intros i b'. cbn. destruct (decide (fileId = i)) as [->|Hne].
  - rewrite lookup_insert_eq. by intros [= <-].
  - rewrite lookup_insert_ne by done. apply HA.
Qed.

Lemma handleStreamChunk_steps floorPercent fileId chunk r :
  loggedInSteps r -> loggedInSteps (handleStreamChunk floorPercent fileId chunk r).
Proof.
  intros Hr. unfold handleStreamChunk.
  set (r1 := match bufferOf r fileId with
             | GotNothing =>
                 setBuffer fileId fallbackBuffer (addLog (LogUnknownFile fileId) r)
             | _ => r
             end).
  assert (Hr1 : loggedInSteps r1).
  { subst r1. destruct (bufferOf r fileId); [done|done|].
    apply setBuffer_steps; [|done]. by apply addLog_steps. }
  clearbody r1. destruct (bufferOf r1 fileId) as [buffer| |] eqn:Hb; [|done|done].
  apply jsGet_entry in Hb.
  assert (Hlast : lastLog buffer mod 20 = 0) by (by apply (proj1 Hr1 fileId)).
  set (percent := floorPercent (received buffer + byteLength chunk) (bufSize buffer)).
  destruct ((0 <? bufSize buffer) && (percent mod 20 =? 0)
            && negb (percent =? lastLog buffer)) eqn:Hlogged.
  - apply andb_prop in Hlogged as [[_ Hmod]%andb_prop _].
    apply N.eqb_eq in Hmod.
    apply setBuffer_steps; [|done].
    apply addLog_steps; [|by intros p [= <-]].
    destruct (decide _); [by apply addLog_steps|done].
  - apply setBuffer_steps; [|done].
    destruct (decide _); [by apply addLog_steps|done].
Qed.

Lemma receiverOnData_steps floorPercent data now r :
  loggedInSteps r -> loggedInSteps (receiverOnData floorPercent data now r).
Proof.
  intros Hr. destruct data as [fileId name size mime|fileId chunk|fileId];
    cbn [receiverOnData].
  - apply setBuffer_steps; [|done]. by apply addLog_steps.
  - by apply handleStreamChunk_steps.
  - assert (Hr' : loggedInSteps (addLog (LogFileEnd fileId) r)) by (by apply addLog_steps).
    unfold finishFile.
    destruct (bufferOf (addLog (LogFileEnd fileId) r) fileId) as [b| |];
      [|done|by apply addLog_steps].
    destruct (decide _); [by apply addLog_steps|].
    destruct Hr' as [HA HB]. split.
    + intros i b'. cbn. unfold jsDelete. case_bool_decide; [apply (HA i)|].
      intros Hd. apply lookup_delete_Some in Hd as [_ Hd].
      by apply (HA i).
    + intros percent Hin. cbn in Hin.
      apply elem_of_cons in Hin as [Hin|Hin]; [discriminate|].
      apply elem_of_cons in Hin as [Hin|Hin]; [discriminate|].
      by apply HB.
Qed.

Lemma receiveAll_steps floorPercent msgs r :
  loggedInSteps r -> loggedInSteps (receiveAll floorPercent msgs r).
Proof.
  revert r. induction msgs as [|[m t] msgs IH]; intros r Hr; [done|].
  cbn [receiveAll]. by apply IH, receiverOnData_steps.
Qed.

End ProgressLog.

(** X9.  The start/chunk/end receiver logs progress in steps of 20:
    whatever messages arrive and whatever the floating-point percentage
    evaluates to, every "Receiving... p%" line in the log has [p] a
    multiple of 20, and so has the last logged percentage kept in every
    buffer. *)
Theorem progress_logged_in_steps (floorPercent : N -> N -> N)
    (msgs : list (StartChunkEnd.Message * N)) :
  StartChunkEndHost.loggedInSteps
    (StartChunkEnd.receiveAll floorPercent msgs StartChunkEnd.initReceiver).
Proof.
  apply ProgressLog.receiveAll_steps. split.
  - intros fileId b Hb. cbn in Hb. by rewrite lookup_empty in Hb.
  - intros percent Hin. cbn in Hin. by apply elem_of_nil in Hin.
Qed.

(** X10.  After [destroyHost] the ACK-gated host holds no transfer, and
    chunks alone never start one: whatever chunk messages still arrive,
    for ids that are neither ["__proto__"] nor a property name of
    [Object.prototype], the receiver state stays the reset state and
    nothing is sent back. *)
Theorem chunks_after_destroy_are_dropped (h : AckGatedHost.Host)
    (msgs : list (AckGated.Message * N)) :
  Forall (fun m => exists id chunk,
              fst m = AckGated.CHUNK id chunk
              /\ id <> "__proto__" /\ id ∉ objectPrototypeNames) msgs ->
  AckGatedHost.rx (AckGatedHost.destroyHost h) = AckGated.initReceiver
  /\ AckGated.receiveAll msgs (AckGatedHost.rx (AckGatedHost.destroyHost h))
     = Some (AckGated.initReceiver, []).
Proof.
  intros Hmsgs. split; [reflexivity|].
  change (AckGatedHost.rx (AckGatedHost.destroyHost h)) with AckGated.initReceiver.
  induction Hmsgs as [|[m t] msgs (id & chunk & Hm & Hp & Hn) _ IH]; [done|].
  cbn in Hm. subst m. cbn [AckGated.receiveAll].
  rewrite AckGatedReceiver.chunk_without_entry by (by apply jsGet_plain).
  by rewrite IH.
Qed.


(** ** More on the ACK-gated sender *)

Module SenderState.
Import AckGated.

(** A stream stays "sending" until its loop meets the end of the file. *)
Lemma runLoop_sending c envs st :
  sendingState (ui st) = sending ->
  (reachedEOF (snd (runLoop c envs st))
   /\ sendingState (ui (fst (runLoop c envs st))) = done)
  \/ (~ reachedEOF (snd (runLoop c envs st))
      /\ sendingState (ui (fst (runLoop c envs st))) = sending).
Proof.
  revert st. induction envs as [|e envs IH]; intros st Hs.
  - right. split; [|done]. intros HE. by apply elem_of_nil in HE.
  - rewrite AckGatedFacts.runLoop_cons. cbn [fst snd].
    destruct (AckGatedFacts.loopStep_cases c e st)
      as [Hp Hb|Hp Hb Ho|Hp Hb Ho part|part Hp Ho|part Hp Ho|Hp].
    + destruct (IH st Hs) as [[HE Hd]|[HE Hd]]; [left|right]; (split; [|done]).
      * apply elem_of_cons. by right.
      * intros [Hx|Hx]%elem_of_cons; [discriminate|by apply HE].
    + rewrite AckGatedFacts.runLoop_stopped by done. left. split; [|done].
      by apply list_elem_of_singleton.
    + match goal with |- context [runLoop c envs ?s] => set (st1 := s) end.
      destruct (IH st1 Hs) as [[HE Hd]|[HE Hd]]; [left|right]; (split; [|done]).
      * apply elem_of_cons. by right.
      * intros [Hx|Hx]%elem_of_cons; [discriminate|by apply HE].
    + rewrite AckGatedFacts.runLoop_stopped by done. right. split; [|done].
      intros HE. by apply elem_of_nil in HE.
    + match goal with |- context [runLoop c envs ?s] => set (st1 := s) end.
      destruct (IH st1 Hs) as [[HE Hd]|[HE Hd]]; [left|right]; (split; [|done]).
      * apply elem_of_cons. right. apply elem_of_cons. by right.
      * intros [Hx|Hx]%elem_of_cons; [discriminate|].
        apply elem_of_cons in Hx as [Hx|Hx]; [discriminate|by apply HE].
    + rewrite AckGatedFacts.runLoop_stopped by done. right. split; [|done].
      intros HE. by apply elem_of_nil in HE.
Qed.

End SenderState.

(** X11.  When the channel is reported not open as a chunk has been
    read, the ACK-gated sender is left busy: its loop has stopped short
    of the end of the file, no reset of the interface was ever
    scheduled, the sending state is still "sending", and so the file
    input stays disabled whatever the connection handle says. *)
Theorem lost_connection_leaves_sender_busy (c : N) (f : File) (id : string)
    (u : AckGated.SenderUI) (envs1 : list Env) (e : Env) (envs2 : list Env)
    (part : list byte) :
  AckGated.pending (fst (AckGated.stream c f id u envs1)) = AckGated.PReading part ->
  isOpen e = false ->
  let st := fst (AckGated.stream c f id u (envs1 ++ e :: envs2)) in
  let effs := snd (AckGated.stream c f id u (envs1 ++ e :: envs2)) in
  AckGated.pending st = AckGated.PStopped
  /\ AckGated.offset (AckGated.loop st) < fsize f
  /\ ~ AckGated.reachedEOF effs
  /\ AckGated.sendingState (AckGated.ui st) = AckGated.sending
  /\ forall conn, AckGatedHost.fileInputDisabled conn (AckGated.ui st) = true.
Proof.
  intros Hp Hopen. cbv zeta. unfold AckGated.stream in *.
  set (st0 := AckGated.startLoop f id u) in *.
  destruct (AckGatedFacts.runLoop_chunks c envs1 st0 I)
    as (k & _ & Hfile & _ & _ & _ & Hwf & HEOF).
  assert (Hno : ~ AckGated.reachedEOF (snd (AckGated.runLoop c envs1 st0))).
  { intros HE. destruct (HEOF HE) as (_ & Hs & _). congruence. }
  destruct (SenderState.runLoop_sending c envs1 st0 eq_refl) as [[HE _]|[_ Hsend]];
    [done|].
  rewrite AckGatedFacts.runLoop_app, AckGatedFacts.runLoop_cons.
  destruct (AckGatedFacts.loopStep_cases c e (fst (AckGated.runLoop c envs1 st0)));
    try congruence.
  rewrite AckGatedFacts.runLoop_stopped by done.
  cbn [fst snd AckGated.loop AckGated.ui AckGated.pending]. rewrite !app_nil_r.
  unfold AckGated.wfLoop in Hwf. rewrite Hp in Hwf. destruct Hwf as [_ Hlt].
  rewrite Hfile in Hlt.
  split_and!; try done.
  intros conn. unfold AckGatedHost.fileInputDisabled. rewrite Hsend.
  by destruct conn.
Qed.

(** X13.  In the single-shot iteration a connected sender puts the whole
    file into one message, and the host that receives it adds one entry
    whose blob holds exactly the file's bytes under the file's type and
    name; this includes the empty file.  Without a file or without a
    connection nothing is sent. *)
Theorem single_shot_round_trip (f : File) (s : SingleShot.Sender)
    (h : SingleShot.Host) (now : N) :
  SingleShot.senderConn s = true ->
  (exists m,
      snd (SingleShot.sendWhole (Some f) s) = [m]
      /\ SingleShot.files (SingleShot.hostOnData m now h)
         = {| SingleShot.entryId := now; SingleShot.entryName := fname f;
              SingleShot.entrySize := fsize f;
              SingleShot.url := {| blobBytes := content f; blobType := ftype f |};
              SingleShot.entrySender := "Customer";
              SingleShot.timestamp := now |} :: SingleShot.files h)
  /\ SingleShot.sendWhole None s = (s, [])
  /\ (forall s', SingleShot.senderConn s' = false ->
        SingleShot.sendWhole (Some f) s' = (s', [])).
Proof.
  intros Hconn. split_and!.
  - unfold SingleShot.sendWhole, SingleShot.sendFile. rewrite Hconn. cbn.
    eexists. split; [reflexivity|]. cbn. rewrite newBlob_ftype. cbn.
    by rewrite app_nil_r.
  - reflexivity.
  - intros s' Hs'. unfold SingleShot.sendWhole, SingleShot.sendFile.
    by rewrite Hs'.
Qed.


(** ** The further theorems at sample inputs *)

(** A 5-byte file uploaded in chunks of 4 and received from scratch. *)
Lemma end_to_end_start_chunk_end_witness :
  let sent := StartChunkEnd.sentMessages
                (snd (StartChunkEnd.upload 4 sampleFile "t1" StartChunkEnd.sampleUI
                        (replicate 5 flowingEnv))) in
  let msgs := (fun m => (m, 1)) <$> sent in
  0 < 4
  /\ content sampleFile <> []
  /\ StartChunkEnd.FileEnd "t1" ∈ sent
  /\ fst <$> msgs = sent
  /\ exists entry,
       StartChunkEnd.files
         (StartChunkEnd.receiveAll StartChunkEnd.sampleFloorPercent msgs
            StartChunkEnd.initReceiver) = [entry]
       /\ StartChunkEnd.url entry
          = {| blobBytes := content sampleFile; blobType := ftype sampleFile |}.
Proof.
  cbv zeta.
  assert (H1 : 0 < 4) by reflexivity.
  assert (H2 : content sampleFile <> []) by discriminate.
  assert (H3 : StartChunkEnd.FileEnd "t1"
                 ∈ StartChunkEnd.sentMessages
                     (snd (StartChunkEnd.upload 4 sampleFile "t1" StartChunkEnd.sampleUI
                             (replicate 5 flowingEnv))))
    by (vm_compute; repeat constructor).
  assert (H4 : fst <$> ((fun m => (m, 1)) <$>
                 StartChunkEnd.sentMessages
                   (snd (StartChunkEnd.upload 4 sampleFile "t1" StartChunkEnd.sampleUI
                           (replicate 5 flowingEnv))))
               = StartChunkEnd.sentMessages
                   (snd (StartChunkEnd.upload 4 sampleFile "t1" StartChunkEnd.sampleUI
                           (replicate 5 flowingEnv))))
    by (vm_compute; reflexivity).
  split_and!; try done.
  destruct (end_to_end_start_chunk_end 4 sampleFile "t1" StartChunkEnd.sampleUI
              (replicate 5 flowingEnv) StartChunkEnd.sampleFloorPercent _
              StartChunkEnd.initReceiver H1 H2 H3 H4)
    as (entry & G1 & _ & _ & _ & G5).
  by exists entry.
Defined.

Lemma sender_reaches_host_witness :
  let h := {| AckGatedHost.role := AckGatedHost.home;
              AckGatedHost.customId := " Vantal  Print ";
              AckGatedHost.peerId := EmptyString;
              AckGatedHost.hostStatus := EmptyString;
              AckGatedHost.hostError := EmptyString;
              AckGatedHost.peerEngine := None;
              AckGatedHost.rx := AckGated.initReceiver |} in
  AckGatedHost.customId h = " Vantal  Print "
  /\ " Vantal  Print " <> EmptyString
  /\ exists p,
       AckGatedHost.peerEngine (AckGatedHost.startHosting h) = Some p
       /\ AckGatedHost.destroyed p = false
       /\ RoomName.connectTarget " Vantal  Print " = Some (AckGatedHost.requestedId p).
Proof.
  cbv zeta. split; [reflexivity|]. split; [discriminate|].
  apply (sender_reaches_host " Vantal  Print "); [reflexivity|discriminate].
Defined.

Lemma blank_name_registers_empty_id_witness :
  let h := {| AckGatedHost.role := AckGatedHost.home;
              AckGatedHost.customId := "  ";
              AckGatedHost.peerId := EmptyString;
              AckGatedHost.hostStatus := EmptyString;
              AckGatedHost.hostError := EmptyString;
              AckGatedHost.peerEngine := None;
              AckGatedHost.rx := AckGated.initReceiver |} in
  AckGatedHost.customId h <> EmptyString
  /\ RoomName.allChars RoomName.isWhiteSpace (AckGatedHost.customId h) = true
  /\ AckGatedHost.peerEngine (AckGatedHost.startHosting h)
     = Some {| AckGatedHost.requestedId := EmptyString;
               AckGatedHost.destroyed := false |}.
Proof.
  cbv zeta. split; [discriminate|]. split; [reflexivity|].
  refine (proj1 (blank_name_registers_empty_id _ _ _)); [discriminate|reflexivity].
Defined.

Ltac notInherited :=
  let H := fresh in
  intros H; repeat (apply elem_of_cons in H as [H|H]; [discriminate H|]);
  by apply elem_of_nil in H.

(** A header for 2 bytes, a 2-byte chunk that completes the transfer,
    then one more byte. *)
Lemma late_chunk_replaces_artifact_witness :
  let r := fst (AckGated.handleHeader "t1" "a.txt" 2 0 AckGated.initReceiver) in
  let meta := {| AckGated.metaName := "a.txt"; AckGated.metaSize := 2;
                 AckGated.metaType := "HEADER"; AckGated.receivedBytes := 0;
                 AckGated.chunks := []; AckGated.lastUpdate := 0 |} in
  AckGated.handleIncomingData (AckGated.HEADER "t1" "a.txt" 2) 0 AckGated.initReceiver
    = Some (r, [AckGated.ACK "t1"])
  /\ AckGated.incomingFilesRef r !! "t1" = Some meta
  /\ AckGated.metaSize meta <= AckGated.receivedBytes meta + byteLength [Byte.x61; Byte.x62]
  /\ exists r1 r2,
       AckGated.handleIncomingData (AckGated.CHUNK "t1" [Byte.x61; Byte.x62]) 1 r
         = Some (r1, [])
       /\ AckGated.handleIncomingData (AckGated.CHUNK "t1" [Byte.x63]) 2 r1 = Some (r2, [])
       /\ forall card, card ∈ AckGated.files r2 -> AckGated.cardId card = "t1" ->
            AckGated.url card = Some {| blobBytes := [Byte.x63]; blobType := "header" |}.
Proof.
  cbv zeta. split; [reflexivity|].
  match goal with |- ?A /\ ?B /\ _ =>
    assert (H1 : A) by (vm_compute; reflexivity);
    assert (H2 : B) by (vm_compute; discriminate) end.
  split; [exact H1|]. split; [exact H2|].
  destruct (late_chunk_replaces_artifact "t1" [Byte.x61; Byte.x62] [Byte.x63] 1 2 _ _ H1 H2)
    as (r1 & r2 & G1 & G2 & _ & G4).
  exists r1, r2. split_and!; try done.
  intros card Hc Hid. by destruct (G4 card Hc Hid).
Defined.

(** A 5-byte transfer received in one chunk, then two end signals. *)
Lemma second_end_signal_fails_witness :
  let r := StartChunkEnd.receiveAll StartChunkEnd.sampleFloorPercent
             [(StartChunkEnd.FileStart "t1" "a.txt" 5 "text/plain", 0);
              (StartChunkEnd.StreamChunk "t1" (content sampleFile), 1)]
             StartChunkEnd.initReceiver in
  let b := {| StartChunkEnd.bufName := "a.txt"; StartChunkEnd.bufSize := 5;
              StartChunkEnd.bufType := "text/plain"; StartChunkEnd.received := 5;
              StartChunkEnd.chunks := [content sampleFile];
              StartChunkEnd.lastLog := 100; StartChunkEnd.startTime := Some 0 |} in
  let r1 := StartChunkEnd.receiverOnData StartChunkEnd.sampleFloorPercent
              (StartChunkEnd.FileEnd "t1") 2 r in
  let r2 := StartChunkEnd.receiverOnData StartChunkEnd.sampleFloorPercent
              (StartChunkEnd.FileEnd "t1") 3 r1 in
  StartChunkEnd.incomingBuffer r !! "t1" = Some b
  /\ StartChunkEnd.chunks b <> []
  /\ "t1" <> "__proto__"
  /\ ("t1" ∉ objectPrototypeNames)
  /\ StartChunkEnd.incomingBuffer r !! "__proto__" = None
  /\ StartChunkEnd.files r2 = StartChunkEnd.files r1
  /\ StartChunkEnd.logs r2
     = StartChunkEnd.LogBufferEmpty "t1" :: StartChunkEnd.LogFileEnd "t1"
       :: StartChunkEnd.logs r1.
Proof.
  cbv zeta.
  match goal with |- ?A /\ ?B /\ ?C /\ ?D /\ ?E /\ _ =>
    assert (H1 : A) by (vm_compute; reflexivity);
    assert (H2 : B) by discriminate;
    assert (H3 : C) by discriminate;
    assert (H4 : D) by notInherited;
    assert (H5 : E) by (vm_compute; reflexivity) end.
  pose proof (second_end_signal_fails StartChunkEnd.sampleFloorPercent
                "t1" 2 3 _ _ H1 H2 H3 H4 H5) as (_ & G2 & _ & G4).
  split_and!; [exact H1|exact H2|exact H3|exact H4|exact H5|exact G2|exact G4].
Defined.

Lemma chunks_after_destroy_are_dropped_witness :
  let h := {| AckGatedHost.role := AckGatedHost.host;
              AckGatedHost.customId := "vantal";
              AckGatedHost.peerId := "vantal";
              AckGatedHost.hostStatus := "Online";
              AckGatedHost.hostError := EmptyString;
              AckGatedHost.peerEngine := None;
              AckGatedHost.rx := AckGated.initReceiver |} in
  let msgs := [(AckGated.CHUNK "t1" [Byte.x61], 1); (AckGated.CHUNK "t2" [], 2)] in
  Forall (fun m => exists id chunk,
              fst m = AckGated.CHUNK id chunk
              /\ id <> "__proto__" /\ id ∉ objectPrototypeNames) msgs
  /\ AckGated.receiveAll msgs (AckGatedHost.rx (AckGatedHost.destroyHost h))
     = Some (AckGated.initReceiver, []).
Proof.
  cbv zeta.
  match goal with |- ?A /\ _ =>
    assert (H1 : A)
      by (repeat constructor; eexists _, _;
          (split; [reflexivity|split; [discriminate|notInherited]])) end.
  split; [exact H1|].
  exact (proj2 (chunks_after_destroy_are_dropped _ _ H1)).
Defined.

(** The channel closes while the first chunk of a 5-byte file is read. *)
Lemma lost_connection_leaves_sender_busy_witness :
  let closed := {| bufferedAmount := 0; isOpen := false |} in
  AckGated.pending
    (fst (AckGated.stream 4 sampleFile "t1" AckGated.sampleUI [flowingEnv]))
    = AckGated.PReading [Byte.x61; Byte.x62; Byte.x63; Byte.x64]
  /\ isOpen closed = false
  /\ AckGated.sendingState
       (AckGated.ui (fst (AckGated.stream 4 sampleFile "t1" AckGated.sampleUI
                            ([flowingEnv] ++ closed :: [flowingEnv]))))
     = AckGated.sending.
Proof.
  cbv zeta.
  match goal with |- ?A /\ ?B /\ _ =>
    assert (H1 : A) by (vm_compute; reflexivity);
    assert (H2 : B) by reflexivity end.
  split; [exact H1|]. split; [exact H2|].
  exact (proj1 (proj2 (proj2 (proj2
           (lost_connection_leaves_sender_busy 4 sampleFile "t1" AckGated.sampleUI
              [flowingEnv] _ [flowingEnv] _ H1 H2))))).
Defined.

Lemma single_shot_round_trip_witness :
  let s := {| SingleShot.senderConn := true; SingleShot.senderStatus := "Connected!";
              SingleShot.uploadProgress := 0 |} in
  let h := {| SingleShot.files := []; SingleShot.hostStatus := EmptyString;
              SingleShot.hostConn := true |} in
  SingleShot.senderConn s = true
  /\ exists m,
       snd (SingleShot.sendWhole (Some emptyFile) s) = [m]
       /\ SingleShot.url <$> SingleShot.files (SingleShot.hostOnData m 7 h)
          = [ {| blobBytes := []; blobType := "text/plain" |} ].
Proof.
  cbv zeta. split; [reflexivity|].
  destruct (proj1 (single_shot_round_trip emptyFile
                     {| SingleShot.senderConn := true;
                        SingleShot.senderStatus := "Connected!";
                        SingleShot.uploadProgress := 0 |}
                     {| SingleShot.files := []; SingleShot.hostStatus := EmptyString;
                        SingleShot.hostConn := true |} 7 eq_refl))
    as (m & G1 & G2).
  exists m. split; [exact G1|]. by rewrite G2.
Defined.

